(** * Bulk Image Optimizer: a shallow embedding of [src/main.py]

    The development follows the source file top to bottom:

    - [PyFloat]   Python's [float] arithmetic as used by the resize step
                  (binary64, round to nearest, ties to even);
    - [PyStr]     the [str] and [os.path] functions the program calls;
    - [PIL]       the part of Pillow's [Image] interface the program uses;
    - the application object ([ImageOptimizerApp]) with its methods
      [start_optimization], [process_images], [optimize_image],
      [finish_optimization], [cancel_optimization] and the selection
      handlers, written in a state-and-exception monad;
    - the properties of the batch optimization pipeline. *)

From Stdlib Require Import ZArith QArith Qround Qabs Qpower Lqa Lia.
From Stdlib Require Import String Ascii DecimalString.
From Stdlib Require PrimFloat FloatOps Uint63.
From stdpp Require Import base gmap strings list.

Open Scope Z_scope.

(** ** Exceptions and results

    Every exception the modelled code can meet derives from Python's
    [Exception]; [KeyboardInterrupt] and [SystemExit] are delivered to
    the main thread only and are not part of the model. *)

Inductive exn : Type :=
| ZeroDivisionError
| OverflowError
| ValueError (msg : string)
| OSError (msg : string)
| UnidentifiedImageError
| MemoryError
| IndexError.

Inductive result (A : Type) : Type :=
| Ok (a : A)
| Raise (e : exn).
Arguments Ok {A} a.
Arguments Raise {A} e.

Definition is_ok {A} (r : result A) : bool :=
  match r with Ok _ => true | Raise _ => false end.

(** ** Python floats

    A finite [float] is represented by the rational number it denotes.
    [fl] rounds a rational to the nearest binary64 value, ties to even,
    with a 53-bit significand.  The exponent range is modelled at the top
    (results of magnitude [2^1024] and above overflow); gradual underflow
    below [2^-1022] is not modelled, it needs an operand above [2^1022]
    and image dimensions are C [int]s. *)

Module PyFloat.
Local Open Scope Q_scope.

(** The largest [e] with [2^e <= x], for [0 < x]. *)
Definition ilog2 (x : Q) : Z :=
  let c := (Z.log2 (Qnum x) - Z.log2 (Zpos (Qden x)))%Z in
  if Qle_bool (2 ^ c) x then c else (c - 1)%Z.

(** Nearest integer, ties to even. *)
Definition rne (x : Q) : Z :=
  let f := Qfloor x in
  match Qcompare (x - inject_Z f) (1 # 2) with
  | Lt => f
  | Gt => (f + 1)%Z
  | Eq => if Z.even f then f else (f + 1)%Z
  end.

(** A positive rational rounded to 53 significant bits. *)
Definition round_pos (x : Q) : Q :=
  let e := (ilog2 x - 52)%Z in
  inject_Z (rne (x / 2 ^ e)) * 2 ^ e.

(** Rounding to binary64, the exponent unbounded. *)
Definition fl (x : Q) : Q :=
  match Qcompare 0 x with
  | Eq => 0
  | Lt => round_pos x
  | Gt => - round_pos (- x)
  end.

(** A rounded result too large for the format. *)
Definition overflows (x : Q) : bool := Qle_bool (2 ^ 1024) (Qabs x).

(** A float is finite or an infinity; no operation of the program
    produces a NaN. *)
Inductive float : Type :=
| Finite (q : Q)
| Infinity (negative : bool).

(** [a / b] on two [int]s: the correctly rounded quotient. *)
Definition int_truediv (a b : Z) : result Q :=
  if (b =? 0)%Z then Raise ZeroDivisionError
  else
    let q := fl (inject_Z a / inject_Z b) in
    if overflows q then Raise OverflowError else Ok q.

(** [float(n)], the implicit conversion in [n * x]. *)
Definition float_of_int (n : Z) : result Q :=
  let q := fl (inject_Z n) in
  if overflows q then Raise OverflowError else Ok q.

(** [x * y] on two floats. *)
Definition float_mul (x y : Q) : float :=
  let p := fl (x * y) in
  if overflows p then Infinity (Qle_bool p 0) else Finite p.

(** [n * x] with [n] an [int] and [x] a [float]. *)
Definition int_mul_float (n : Z) (x : Q) : result float :=
  match float_of_int n with
  | Ok fn => Ok (float_mul fn x)
  | Raise e => Raise e
  end.

(** [min(x, y)]: the first argument unless the second is smaller. *)
Definition min (x y : Q) : Q :=
  if Qlt_le_dec y x then y else x.

(** The integer part, toward zero. *)
Definition Qtrunc (x : Q) : Z := Z.quot (Qnum x) (Zpos (Qden x)).

(** [int(x)]: truncation toward zero. *)
Definition int_of_float (x : float) : result Z :=
  match x with
  | Finite q => Ok (Qtrunc q)
  | Infinity _ => Raise OverflowError
  end.

(** The same operations on the kernel's binary64 numbers, to compare
    [fl] with the hardware on given operands (integers below [2^53],
    which convert exactly). *)
Definition Q_of_prim (x : PrimFloat.float) : option Q :=
  match FloatOps.Prim2SF x with
  | SpecFloat.S754_zero _ => Some 0
  | SpecFloat.S754_finite negative m e =>
      let magnitude := inject_Z (Z.pos m) * 2 ^ e in
      Some (if negative then - magnitude else magnitude)
  | _ => None
  end.

Definition prim_of_int (n : Z) : PrimFloat.float :=
  PrimFloat.of_uint63 (Uint63.of_Z n).

(** [int(w * (m / w))] computed by the hardware and by the model agree. *)
Definition agrees_with_hardware (m w : Z) : bool :=
  match int_truediv m w with
  | Ok ratio =>
      match Q_of_prim (PrimFloat.div (prim_of_int m) (prim_of_int w)),
            Q_of_prim (PrimFloat.mul (prim_of_int w)
                         (PrimFloat.div (prim_of_int m) (prim_of_int w))),
            float_mul (fl (inject_Z w)) ratio with
      | Some hw_ratio, Some hw_product, Finite product =>
          Qeq_bool hw_ratio ratio && Qeq_bool hw_product product
      | _, _, _ => false
      end
  | Raise _ => false
  end.

End PyFloat.

(** ** Python strings and [os.path]

    A [str] is a sequence of code points; the model keeps the code
    points below 256 (Latin-1), one per [ascii].  [os.path] is
    [posixpath]. *)

Module PyStr.
Local Open Scope string_scope.

Definition code (c : ascii) : N := N_of_ascii c.

Definition is_decimal (c : ascii) : bool :=
  (48 <=? code c)%N && (code c <=? 57)%N.

(** The superscript digits U+00B2, U+00B3 and U+00B9: [str.isdigit] is
    true of them and [int] rejects them. *)
Definition is_superscript (c : ascii) : bool :=
  (code c =? 178)%N || (code c =? 179)%N || (code c =? 185)%N.

Definition char_isdigit (c : ascii) : bool :=
  is_decimal c || is_superscript c.

Fixpoint all_chars (p : ascii -> bool) (s : string) : bool :=
  match s with
  | EmptyString => true
  | String c s' => p c && all_chars p s'
  end.

(** [s.isdigit()]: at least one character and every character a digit. *)
Definition isdigit (s : string) : bool :=
  match s with
  | EmptyString => false
  | _ => all_chars char_isdigit s
  end.

Definition digit_value (c : ascii) : Z := Z.of_N (code c) - 48.

Fixpoint digits_value (acc : Z) (s : string) : Z :=
  match s with
  | EmptyString => acc
  | String c s' => digits_value (10 * acc + digit_value c) s'
  end.

Definition invalid_literal (s : string) : exn :=
  ValueError ("invalid literal for int() with base 10: '" ++ s ++ "'").

(** [int(s)] for a string without blanks, sign or underscores, the only
    kind the program passes to it: decimal digits are read in base 10,
    any other character raises [ValueError].  The interpreter's limit on
    the number of digits is left out. *)
Definition int (s : string) : result Z :=
  match s with
  | EmptyString => Raise (invalid_literal s)
  | _ => if all_chars is_decimal s then Ok (digits_value 0 s)
         else Raise (invalid_literal s)
  end.

(** [str(n)] for an [int]. *)
Definition str (n : Z) : string := NilZero.string_of_int (Z.to_int n).

Definition lower_char (c : ascii) : ascii :=
  if (65 <=? code c)%N && (code c <=? 90)%N
  then ascii_of_N (code c + 32) else c.

Definition upper_char (c : ascii) : ascii :=
  if (97 <=? code c)%N && (code c <=? 122)%N
  then ascii_of_N (code c - 32) else c.

Fixpoint map_chars (f : ascii -> ascii) (s : string) : string :=
  match s with
  | EmptyString => EmptyString
  | String c s' => String (f c) (map_chars f s')
  end.

(** [s.lower()] and [s.upper()] on ASCII letters, which is what the
    format names of [FORMATS] are made of. *)
Definition lower : string -> string := map_chars lower_char.
Definition upper : string -> string := map_chars upper_char.

Definition startswith (s pre : string) : bool := String.prefix pre s.

Fixpoint endswith (s suf : string) : bool :=
  String.eqb s suf ||
  match s with
  | EmptyString => false
  | String _ s' => endswith s' suf
  end.

(** [split_last c s = Some (h, t)] when [s = h ++ c :: t] and [c] does
    not occur in [t]. *)
Fixpoint split_last (c : ascii) (s : string) : option (string * string) :=
  match s with
  | EmptyString => None
  | String a s' =>
      match split_last c s' with
      | Some (h, t) => Some (String a h, t)
      | None => if Ascii.eqb a c then Some (EmptyString, s') else None
      end
  end.

(** [s.rstrip(c)] for a single character [c]. *)
Fixpoint rstrip (c : ascii) (s : string) : string :=
  match s with
  | EmptyString => EmptyString
  | String a s' =>
      match rstrip c s' with
      | EmptyString =>
          if Ascii.eqb a c then EmptyString else String a EmptyString
      | r => String a r
      end
  end.

Definition sep : ascii := "/"%char.
Definition extsep : ascii := "."%char.
Definition is_char (c a : ascii) : bool := Ascii.eqb a c.

(** [os.path.basename(p)]: what follows the last separator. *)
Definition basename (p : string) : string :=
  match split_last sep p with
  | Some (_, t) => t
  | None => p
  end.

(** [os.path.dirname(p)]. *)
Definition dirname (p : string) : string :=
  match split_last sep p with
  | Some (h, _) =>
      let head := h ++ String sep EmptyString in
      if all_chars (is_char sep) head then head else rstrip sep head
  | None => EmptyString
  end.

(** [os.path.splitext(p)]: the extension starts at the last dot of the
    last component, unless only dots precede it there. *)
Definition splitext (p : string) : string * string :=
  let '(dir, name) :=
    match split_last sep p with
    | Some (h, t) => (h ++ String sep EmptyString, t)
    | None => (EmptyString, p)
    end in
  match split_last extsep name with
  | Some (stem, e) =>
      if all_chars (is_char extsep) stem then (p, EmptyString)
      else (dir ++ stem, String extsep e)
  | None => (p, EmptyString)
  end.

(** [os.path.join(a, b)]. *)
Definition join (a b : string) : string :=
  if startswith b "/" then b
  else if String.eqb a "" || endswith a "/" then a ++ b
  else a ++ "/" ++ b.

End PyStr.

(** ** Pillow

    An image carries its size, its mode, the format of the file it was
    read from ([None] for an image made by the library) and a symbolic
    account of how its pixels were obtained. *)

Module PIL.
Local Open Scope string_scope.

Inductive pixels : Type :=
| Decoded (path : string)
| Resampled (src : pixels) (size : Z * Z)
| Solid (color : Z * Z * Z)
| Pasted (dst src : pixels)
| PastedThrough (mask dst src : pixels)
| Band (src : pixels) (index : nat).

Record image : Type := {
  size : Z * Z;
  mode : string;
  format : option string;
  data : pixels
}.

Definition mode_in (m : string) (ms : list string) : bool :=
  existsb (String.eqb m) ms.

(** Number of bands of a mode. *)
Definition bands (m : string) : nat :=
  if mode_in m ["RGBA"; "CMYK"; "RGBX"; "RGBa"] then 4
  else if mode_in m ["RGB"; "YCbCr"; "LAB"; "HSV"] then 3
  else if mode_in m ["LA"; "PA"; "La"] then 2
  else 1.


(** [Image.new(mode, size, color)]. *)
Definition new (m : string) (sz : Z * Z) (color : Z * Z * Z) : image :=
  {| size := sz; mode := m; format := None; data := Solid color |}.

(** [img.split()]. *)
Definition split (img : image) : list image :=
  map (fun i => {| size := size img; mode := "L"; format := None;
                   data := Band (data img) i |})
      (seq 0 (bands (mode img))).

(** [dst.paste(src, mask=mask)]; [dst] is updated in place, the value is
    its new state. *)
Definition paste (dst src : image) (mask : option image) : image :=
  {| size := size dst; mode := mode dst; format := format dst;
     data := match mask with
             | Some m => PastedThrough (data m) (data dst) (data src)
             | None => Pasted (data dst) (data src)
             end |}.

(** Modes the JPEG writer encodes ([RAWMODE] of [JpegImagePlugin]). *)
Definition jpeg_rawmodes : list string :=
  ["1"; "L"; "RGB"; "RGBX"; "CMYK"; "YCbCr"].

(** Keyword arguments of [save]. *)
Record save_params : Type := {
  quality : option Z;
  optimize : option bool;
  compress_level : option Z;
  method : option Z
}.

Definition no_params : save_params :=
  {| quality := None; optimize := None; compress_level := None;
     method := None |}.

(** A completed [img.save(path, format=..., ...)]. *)
Record saved_file : Type := {
  saved_path : string;
  saved_format : string;
  saved_image : image;
  saved_params : save_params
}.

End PIL.

(** ** The environment of a call

    What the operating system and the codecs answer.  The [*_fault]
    fields say when a codec or the file system fails (corrupt data,
    memory, permissions, a full disk). *)

Record World : Type := {
  os_path_exists : string -> bool;
  os_makedirs : string -> option string;
  time_time : Q;
  Image_open : string -> result PIL.image;
  resize_fault : PIL.image -> Z * Z -> option exn;
  save_fault : string -> string -> PIL.image -> option exn
}.

Module Pillow.
Import PIL.
Local Open Scope string_scope.

(** [img.resize(size, Image.LANCZOS)] to a size other than its own: the
    library refuses an empty size, and the result is an image of its
    own making, without a format. *)
Definition resize (W : World) (img : image) (sz : Z * Z) : result image :=
  if (fst sz <? 1)%Z || (snd sz <? 1)%Z
  then Raise (ValueError "height and width must be > 0")
  else match resize_fault W img sz with
       | Some e => Raise e
       | None => Ok {| size := sz; mode := mode img; format := None;
                       data := Resampled (data img) sz |}
       end.

(** [img.save(path, format=fmt, ...)]: the writer refuses a mode it cannot
    encode, then the file is written. *)
Definition save (W : World) (img : image) (path fmt : string)
    (params : save_params) : result saved_file :=
  if String.eqb fmt "JPEG" && negb (mode_in (mode img) jpeg_rawmodes)
  then Raise (OSError ("cannot write mode " ++ mode img ++ " as JPEG"))
  else match save_fault W path fmt img with
       | Some e => Raise e
       | None => Ok {| saved_path := path; saved_format := fmt;
                       saved_image := img; saved_params := params |}
       end.

End Pillow.

(** ** Constants of the program *)

Module DEFAULTS.
Local Open Scope string_scope.
Definition jpg_quality : Z := 85.
Definition png_compression : Z := 6.
Definition resize_enabled : bool := false.
Definition max_width : string := "1920".
Definition max_height : string := "1080".
Definition convert_format : string := "original".
Definition preserve_names : bool := true.
Definition output_subfolder : string := "optimized".
End DEFAULTS.

Module FORMATS.
Local Open Scope string_scope.
Definition convert_options : list string := ["original"; "jpg"; "png"; "webp"].
Definition file_extensions : list string :=
  [".jpg"; ".jpeg"; ".png"; ".gif"; ".bmp"; ".tiff"; ".webp"].
End FORMATS.

(** The entries of [TEXTS] the pipeline uses, with [format] applied. *)
Module TEXTS.
Local Open Scope string_scope.
Definition nl : string := String (ascii_of_nat 10) EmptyString.
Definition ready : string := "Ready".
Definition no_files : string := "No files selected".
Definition files_selected (n : Z) : string := PyStr.str n ++ " files selected".
Definition starting : string := "Starting optimization...".
Definition processing (name : string) : string :=
  "Processing " ++ name ++ "...".
Definition progress (p t s f : Z) : string :=
  "Processed " ++ PyStr.str p ++ "/" ++ PyStr.str t ++ " images. Success: "
  ++ PyStr.str s ++ ", Failed: " ++ PyStr.str f.
Definition canceling : string := "Canceling...".
Definition no_files_warn : string := "No Files Selected".
Definition no_files_msg : string :=
  "Please select at least one image to optimize.".
Definition dir_error_title : string := "Error".
Definition dir_error_msg (e : string) : string :=
  "Could not create output directory: " ++ e.
Definition complete_title : string := "Optimization Complete".
Definition complete_msg (s f : Z) (dir : string) : string :=
  "Successfully optimized " ++ PyStr.str s ++ " images." ++ nl
  ++ "Failed: " ++ PyStr.str f ++ nl ++ nl ++ "Images saved to: " ++ dir.
Definition failed_title : string := "Optimization Failed".
Definition failed_msg (n : Z) : string :=
  "Failed to optimize any of the " ++ PyStr.str n ++ " images." ++ nl
  ++ "Check the console for error details.".
Definition no_images_title : string := "No Images Found".
Definition no_images_msg : string :=
  "No image files were found in the selected folder.".
End TEXTS.

(** [str(e)] for an exception. *)
Definition exn_str (e : exn) : string :=
  match e with
  | ZeroDivisionError => "division by zero"
  | OverflowError => "integer division result too large for a float"
  | ValueError msg => msg
  | OSError msg => msg
  | UnidentifiedImageError => "cannot identify image file"
  | MemoryError => ""
  | IndexError => "tuple index out of range"
  end%string.

(** ** The application object *)

(** The [settings] dictionary built by [start_optimization]. *)
Record Settings : Type := {
  jpg_quality : Z;
  png_compression : Z;
  resize : bool;
  max_width : Z;
  max_height : Z;
  convert_format : string;
  preserve_names : bool;
  output_dir : string
}.

Inductive widget_state : Type := NORMAL | DISABLED.

(** A [messagebox] call. *)
Inductive dialog : Type :=
| showwarning (title message : string)
| showerror (title message : string)
| showinfo (title message : string).

(** The setting widgets the user edits. *)
Record Vars : Type := {
  jpg_quality_var : Z;
  png_compression_var : Z;
  resize_enabled : bool;
  max_width_var : string;
  max_height_var : string;
  convert_format_var : string;
  preserve_names_var : bool
}.

(** Python lists are objects: a variable holds a reference and [heap]
    holds the lists. *)
Definition ref : Type := nat.

Record State : Type := mkState {
  (* attributes of the application object *)
  selected_files : ref;
  output_directory : string;
  processing : bool;
  optimization_thread : list (ref * Settings);
    (* the arguments of every thread started, the latest last *)
  (* Tk variables and widgets *)
  vars : Vars;
  output_dir_var : string;
  files_list : list string;
  file_count_var : string;
  progress_var : PyFloat.float;
  status_var : string;
  optimize_btn : widget_state;
  cancel_btn : widget_state;
  (* the interpreter and the outside *)
  heap : gmap ref (list string);
  after_queue : list (Z * Z);
  dialogs : list dialog;
  stdout : list string;
  written : list PIL.saved_file
}.

Definition set_selected_files (x : ref) (s : State) : State :=
  mkState x (output_directory s) (processing s) (optimization_thread s)
    (vars s) (output_dir_var s) (files_list s) (file_count_var s)
    (progress_var s) (status_var s) (optimize_btn s) (cancel_btn s)
    (heap s) (after_queue s) (dialogs s) (stdout s) (written s).
Definition set_output_directory (x : string) (s : State) : State :=
  mkState (selected_files s) x (processing s) (optimization_thread s)
    (vars s) (output_dir_var s) (files_list s) (file_count_var s)
    (progress_var s) (status_var s) (optimize_btn s) (cancel_btn s)
    (heap s) (after_queue s) (dialogs s) (stdout s) (written s).
Definition set_processing (x : bool) (s : State) : State :=
  mkState (selected_files s) (output_directory s) x (optimization_thread s)
    (vars s) (output_dir_var s) (files_list s) (file_count_var s)
    (progress_var s) (status_var s) (optimize_btn s) (cancel_btn s)
    (heap s) (after_queue s) (dialogs s) (stdout s) (written s).
Definition set_optimization_thread (x : list (ref * Settings)) (s : State)
    : State :=
  mkState (selected_files s) (output_directory s) (processing s) x
    (vars s) (output_dir_var s) (files_list s) (file_count_var s)
    (progress_var s) (status_var s) (optimize_btn s) (cancel_btn s)
    (heap s) (after_queue s) (dialogs s) (stdout s) (written s).
Definition set_vars (x : Vars) (s : State) : State :=
  mkState (selected_files s) (output_directory s) (processing s)
    (optimization_thread s)
    x (output_dir_var s) (files_list s) (file_count_var s)
    (progress_var s) (status_var s) (optimize_btn s) (cancel_btn s)
    (heap s) (after_queue s) (dialogs s) (stdout s) (written s).
Definition set_output_dir_var (x : string) (s : State) : State :=
  mkState (selected_files s) (output_directory s) (processing s)
    (optimization_thread s)
    (vars s) x (files_list s) (file_count_var s)
    (progress_var s) (status_var s) (optimize_btn s) (cancel_btn s)
    (heap s) (after_queue s) (dialogs s) (stdout s) (written s).
Definition set_files_list (x : list string) (s : State) : State :=
  mkState (selected_files s) (output_directory s) (processing s)
    (optimization_thread s)
    (vars s) (output_dir_var s) x (file_count_var s)
    (progress_var s) (status_var s) (optimize_btn s) (cancel_btn s)
    (heap s) (after_queue s) (dialogs s) (stdout s) (written s).
Definition set_file_count_var (x : string) (s : State) : State :=
  mkState (selected_files s) (output_directory s) (processing s)
    (optimization_thread s)
    (vars s) (output_dir_var s) (files_list s) x
    (progress_var s) (status_var s) (optimize_btn s) (cancel_btn s)
    (heap s) (after_queue s) (dialogs s) (stdout s) (written s).
Definition set_progress_var (x : PyFloat.float) (s : State) : State :=
  mkState (selected_files s) (output_directory s) (processing s)
    (optimization_thread s)
    (vars s) (output_dir_var s) (files_list s) (file_count_var s)
    x (status_var s) (optimize_btn s) (cancel_btn s)
    (heap s) (after_queue s) (dialogs s) (stdout s) (written s).
Definition set_status_var (x : string) (s : State) : State :=
  mkState (selected_files s) (output_directory s) (processing s)
    (optimization_thread s)
    (vars s) (output_dir_var s) (files_list s) (file_count_var s)
    (progress_var s) x (optimize_btn s) (cancel_btn s)
    (heap s) (after_queue s) (dialogs s) (stdout s) (written s).
Definition set_optimize_btn (x : widget_state) (s : State) : State :=
  mkState (selected_files s) (output_directory s) (processing s)
    (optimization_thread s)
    (vars s) (output_dir_var s) (files_list s) (file_count_var s)
    (progress_var s) (status_var s) x (cancel_btn s)
    (heap s) (after_queue s) (dialogs s) (stdout s) (written s).
Definition set_cancel_btn (x : widget_state) (s : State) : State :=
  mkState (selected_files s) (output_directory s) (processing s)
    (optimization_thread s)
    (vars s) (output_dir_var s) (files_list s) (file_count_var s)
    (progress_var s) (status_var s) (optimize_btn s) x
    (heap s) (after_queue s) (dialogs s) (stdout s) (written s).
Definition set_heap (x : gmap ref (list string)) (s : State) : State :=
  mkState (selected_files s) (output_directory s) (processing s)
    (optimization_thread s)
    (vars s) (output_dir_var s) (files_list s) (file_count_var s)
    (progress_var s) (status_var s) (optimize_btn s) (cancel_btn s)
    x (after_queue s) (dialogs s) (stdout s) (written s).
Definition set_after_queue (x : list (Z * Z)) (s : State) : State :=
  mkState (selected_files s) (output_directory s) (processing s)
    (optimization_thread s)
    (vars s) (output_dir_var s) (files_list s) (file_count_var s)
    (progress_var s) (status_var s) (optimize_btn s) (cancel_btn s)
    (heap s) x (dialogs s) (stdout s) (written s).
Definition set_dialogs (x : list dialog) (s : State) : State :=
  mkState (selected_files s) (output_directory s) (processing s)
    (optimization_thread s)
    (vars s) (output_dir_var s) (files_list s) (file_count_var s)
    (progress_var s) (status_var s) (optimize_btn s) (cancel_btn s)
    (heap s) (after_queue s) x (stdout s) (written s).
Definition set_stdout (x : list string) (s : State) : State :=
  mkState (selected_files s) (output_directory s) (processing s)
    (optimization_thread s)
    (vars s) (output_dir_var s) (files_list s) (file_count_var s)
    (progress_var s) (status_var s) (optimize_btn s) (cancel_btn s)
    (heap s) (after_queue s) (dialogs s) x (written s).
Definition set_written (x : list PIL.saved_file) (s : State) : State :=
  mkState (selected_files s) (output_directory s) (processing s)
    (optimization_thread s)
    (vars s) (output_dir_var s) (files_list s) (file_count_var s)
    (progress_var s) (status_var s) (optimize_btn s) (cancel_btn s)
    (heap s) (after_queue s) (dialogs s) (stdout s) x.

(** The list a reference points to. *)
Definition deref (s : State) (r : ref) : list string := heap s !!! r.

(** A fresh list object. *)
Definition new_ref (s : State) : ref := fresh (dom (heap s)).

(** ** Statements: state and exceptions

    A statement runs from a state and ends in a value or an exception,
    leaving a state behind either way. *)

Definition M (A : Type) : Type := State -> result A * State.

Definition ret {A} (a : A) : M A := fun s => (Ok a, s).
Definition bind {A B} (m : M A) (k : A -> M B) : M B :=
  fun s => match m s with
           | (Ok a, s') => k a s'
           | (Raise e, s') => (Raise e, s')
           end.
Definition lift {A} (r : result A) : M A := fun s => (r, s).
Definition gets {A} (f : State -> A) : M A := fun s => (Ok (f s), s).
Definition modify (f : State -> State) : M unit := fun s => (Ok tt, f s).

(** [try: body except Exception as e: handler e]. *)
Definition try_except {A} (body : M A) (handler : exn -> M A) : M A :=
  fun s => match body s with
           | (Ok a, s') => (Ok a, s')
           | (Raise e, s') => handler e s'
           end.

Definition rbind {A B} (r : result A) (k : A -> result B) : result B :=
  match r with Ok a => k a | Raise e => Raise e end.

Declare Scope py_scope.
Delimit Scope py_scope with py.
Notation "x <- m ;; k" := (bind m (fun x => k))
  (at level 20, m at level 99, k at level 200, only parsing) : py_scope.
Notation "m ;; k" := (bind m (fun _ => k))
  (at level 100, k at level 200, right associativity, only parsing)
  : py_scope.
Notation "'let*' x := r 'in' k" := (rbind r (fun x => k))
  (at level 10, x pattern, r at level 99, k at level 200, only parsing).

(** [print(line)]; writing to the console is taken to succeed. *)
Definition print (line : string) : M unit :=
  modify (fun s => set_stdout (stdout s ++ [line]) s).

(** ** [optimize_image] *)

Section OptimizeImage.
Import PIL.
Local Open Scope string_scope.
Local Open Scope py_scope.

(** Lines 689-694: the size handed to [img.resize]. *)
Definition resize_dimensions
    (max_width max_height original_width original_height : Z)
    : result (Z * Z) :=
  let* width_ratio := PyFloat.int_truediv max_width original_width in
  let* height_ratio := PyFloat.int_truediv max_height original_height in
  let ratio := PyFloat.min width_ratio height_ratio in
  let* scaled_width := PyFloat.int_mul_float original_width ratio in
  let* new_width := PyFloat.int_of_float scaled_width in
  let* scaled_height := PyFloat.int_mul_float original_height ratio in
  let* new_height := PyFloat.int_of_float scaled_height in
  Ok (new_width, new_height).

(** Line 687: is the image larger than the maximal dimensions? *)
Definition exceeds (settings : Settings) (sz : Z * Z) : bool :=
  (fst sz >? max_width settings)%Z || (snd sz >? max_height settings)%Z.

(** Lines 681-696. *)
Definition resize_step (W : World) (settings : Settings) (img : image)
    : result image :=
  if resize settings then
    let '(original_width, original_height) := size img in
    if exceeds settings (original_width, original_height) then
      let* new_size :=
        resize_dimensions (max_width settings) (max_height settings)
                          original_width original_height in
      Pillow.resize W img new_size
    else Ok img
  else Ok img.

(** Lines 699-706. *)
Definition determine_format (settings : Settings) (img : image) : string :=
  if negb (String.eqb (convert_format settings) "original")
  then PyStr.upper (convert_format settings)
  else match format img with
       | Some f => f
       | None => "PNG"
       end.

(** [int(time.time())]. *)
Definition timestamp (W : World) : Z := PyFloat.Qtrunc (time_time W).

(** Lines 709-731. *)
Definition output_filename (W : World) (settings : Settings)
    (file_path : string) : string :=
  if preserve_names settings then
    let base_name := PyStr.basename file_path in
    let '(file_name, original_ext) := PyStr.splitext base_name in
    let new_ext :=
      if negb (String.eqb (convert_format settings) "original")
      then "." ++ PyStr.lower (convert_format settings)
      else original_ext in
    file_name ++ new_ext
  else
    let timestamp := timestamp W in
    let file_name := PyStr.basename file_path in
    let '(name_without_ext, _) := PyStr.splitext file_name in
    let ext :=
      if negb (String.eqb (convert_format settings) "original")
      then "." ++ PyStr.lower (convert_format settings)
      else snd (PyStr.splitext file_path) in
    name_without_ext ++ "_optimized_" ++ PyStr.str timestamp ++ ext.

(** Line 733. *)
Definition output_path (W : World) (settings : Settings)
    (file_path : string) : string :=
  PyStr.join (output_dir settings) (output_filename W settings file_path).

(** Lines 738-743: JPEG has no alpha channel. *)
Definition flatten (img : image) : result image :=
  if mode_in (mode img) ["RGBA"; "LA"; "P"] then
    let background := new "RGB" (size img) (255, 255, 255)%Z in
    let* mask :=
      if String.eqb (mode img) "RGBA" then
        match split img !! 3%nat with
        | Some band => Ok (Some band)
        | None => Raise IndexError
        end
      else Ok None in
    Ok (paste background img mask)
  else Ok img.

(** Lines 736-771. *)
Definition save_step (W : World) (settings : Settings) (img : image)
    (output_format path : string) : result saved_file :=
  if String.eqb output_format "JPEG" || String.eqb output_format "JPG" then
    let* img := flatten img in
    Pillow.save W img path "JPEG"
      {| quality := Some (jpg_quality settings); optimize := Some true;
         compress_level := None; method := None |}
  else if String.eqb output_format "PNG" then
    Pillow.save W img path "PNG"
      {| quality := None; optimize := Some true;
         compress_level := Some (png_compression settings);
         method := None |}
  else if String.eqb output_format "WEBP" then
    Pillow.save W img path "WEBP"
      {| quality := Some (jpg_quality settings); optimize := None;
         compress_level := None; method := Some 6%Z |}
  else
    Pillow.save W img path output_format no_params.

(** The body of the [try] block, lines 677-771. *)
Definition optimize_image_body (W : World) (file_path : string)
    (settings : Settings) : result saved_file :=
  let* img := Image_open W file_path in
  let* img := resize_step W settings img in
  let output_format := determine_format settings img in
  let path := output_path W settings file_path in
  save_step W settings img output_format path.

(** Lines 674-777.  The value is [Ok true], [Ok false] or, should an
    exception leave the method, [Raise]. *)
Definition optimize_image (W : World) (file_path : string)
    (settings : Settings) : M bool :=
  try_except
    (f <- lift (optimize_image_body W file_path settings) ;;
     modify (fun s => set_written (written s ++ [f]) s) ;;
     ret true)
    (fun e =>
       print ("Error optimizing " ++ file_path ++ ": " ++ exn_str e) ;;
       ret false).

End OptimizeImage.

(** ** The methods of the control context *)

Section Control.
Local Open Scope string_scope.
Local Open Scope py_scope.

Definition messagebox (d : dialog) : M unit :=
  modify (fun s => set_dialogs (dialogs s ++ [d]) s).

(** Lines 549-558. *)
Definition update_files_list : M unit :=
  modify (fun s =>
    let files := deref s (selected_files s) in
    set_file_count_var (TEXTS.files_selected (Z.of_nat (length files)))
      (set_files_list (map PyStr.basename files) s)).

(** Lines 520-528; [files] is what the file dialog returned. *)
Definition select_files (files : list string) : M unit :=
  match files with
  | [] => ret tt
  | _ =>
      modify (fun s =>
        let r := new_ref s in
        set_selected_files r (set_heap (<[r := files]> (heap s)) s)) ;;
      update_files_list
  end.

(** The files [os.walk] lists that carry a supported extension. *)
Definition discover (walk : list (string * list string)) : list string :=
  flat_map (fun '(root, files) =>
    map (PyStr.join root)
        (filter (fun file =>
           Is_true (existsb (PyStr.endswith (PyStr.lower file))
                            FORMATS.file_extensions))
         files)) walk.

(** Lines 530-547; [folder] is what the directory dialog returned and
    [walk] what [os.walk(folder)] yields.  [extend] changes the list
    object in place. *)
Definition select_folder (folder : string)
    (walk : list (string * list string)) : M unit :=
  if String.eqb folder "" then ret tt
  else
    let new_files := discover walk in
    match new_files with
    | [] => messagebox (showinfo TEXTS.no_images_title TEXTS.no_images_msg)
    | _ =>
        modify (fun s =>
          let r := selected_files s in
          set_heap (<[r := (deref s r ++ new_files)%list]> (heap s)) s) ;;
        update_files_list
    end.

(** Lines 560-564. *)
Definition clear_selection : M unit :=
  modify (fun s =>
    let r := new_ref s in
    set_file_count_var TEXTS.no_files
      (set_files_list []
         (set_selected_files r (set_heap (<[r := []]> (heap s)) s)))).

(** Lines 566-572. *)
Definition select_output_dir (directory : string) : M unit :=
  if String.eqb directory "" then ret tt
  else modify (fun s =>
         set_output_dir_var directory (set_output_directory directory s)).

(** Lines 603-612: a resize bound read from its text field. *)
Definition read_bound (raw default : string) : result Z :=
  if PyStr.isdigit raw then PyStr.int raw else PyStr.int default.

(** Lines 599-616. *)
Definition capture_settings (s : State) (dir : string) : result Settings :=
  let v := vars s in
  let* mw := read_bound (max_width_var v) DEFAULTS.max_width in
  let* mh := read_bound (max_height_var v) DEFAULTS.max_height in
  Ok {| jpg_quality := jpg_quality_var v;
        png_compression := png_compression_var v;
        resize := resize_enabled v;
        max_width := mw;
        max_height := mh;
        convert_format := convert_format_var v;
        preserve_names := preserve_names_var v;
        output_dir := dir |}.

(** Lines 580-586. *)
Definition choose_output_dir : M string :=
  dir <- gets output_dir_var ;;
  if String.eqb dir "" then
    files <- gets (fun s => deref s (selected_files s)) ;;
    let first_image_dir := PyStr.dirname (List.hd "" files) in
    let dir := PyStr.join first_image_dir DEFAULTS.output_subfolder in
    modify (set_output_dir_var dir) ;;
    ret dir
  else ret dir.

(** Lines 618-631: the run begins; the thread receives the list object
    itself and the settings. *)
Definition enter_running (settings : Settings) : M unit :=
  modify (fun s =>
    let s := set_processing true s in
    let s := set_optimize_btn DISABLED s in
    let s := set_cancel_btn NORMAL s in
    let s := set_progress_var (PyFloat.Finite 0) s in
    let s := set_status_var TEXTS.starting s in
    set_optimization_thread
      (optimization_thread s ++ [(selected_files s, settings)]) s).

(** Lines 574-631. *)
Definition start_optimization (W : World) : M unit :=
  files <- gets (fun s => deref s (selected_files s)) ;;
  match files with
  | [] => messagebox (showwarning TEXTS.no_files_warn TEXTS.no_files_msg)
  | _ =>
      dir <- choose_output_dir ;;
      let create :=
        if os_path_exists W dir then None else os_makedirs W dir in
      match create with
      | Some e =>
          messagebox (showerror TEXTS.dir_error_title
                                (TEXTS.dir_error_msg e))
      | None =>
          settings <- (fun s => (capture_settings s dir, s)) ;;
          enter_running settings
      end
  end.

(** Lines 779-795. *)
Definition finish_optimization (successful failed : Z) : M unit :=
  modify (fun s =>
    set_cancel_btn DISABLED
      (set_optimize_btn NORMAL (set_processing false s))) ;;
  if (successful >? 0)%Z then
    dir <- gets output_dir_var ;;
    messagebox (showinfo TEXTS.complete_title
                         (TEXTS.complete_msg successful failed dir))
  else
    messagebox (showerror TEXTS.failed_title
                          (TEXTS.failed_msg (successful + failed))).

(** Lines 797-802. *)
Definition cancel_optimization : M unit :=
  p <- gets processing ;;
  if p then
    modify (fun s => set_status_var TEXTS.canceling (set_processing false s))
  else ret tt.

(** What the user and the Tk main loop can do.  A button that is
    [DISABLED] does not call its command. *)
Inductive event : Type :=
| ClickStart (W : World)
| ClickCancel
| ClickSelectImages (files : list string)
| ClickSelectFolder (folder : string) (walk : list (string * list string))
| ClickClear
| ClickBrowse (directory : string)
| Edit (v : Vars)
| EditOutputDir (dir : string)
| RunAfter.

(** A callback that raises is reported by Tk and the main loop goes on;
    what it changed stays changed. *)
Definition callback (m : M unit) (s : State) : State := snd (m s).

Definition handle (ev : event) (s : State) : State :=
  match ev with
  | ClickStart W =>
      match optimize_btn s with
      | NORMAL => callback (start_optimization W) s
      | DISABLED => s
      end
  | ClickCancel =>
      match cancel_btn s with
      | NORMAL => callback cancel_optimization s
      | DISABLED => s
      end
  | ClickSelectImages files => callback (select_files files) s
  | ClickSelectFolder folder walk => callback (select_folder folder walk) s
  | ClickClear => callback clear_selection s
  | ClickBrowse directory => callback (select_output_dir directory) s
  | Edit v => set_vars v s
  | EditOutputDir dir => set_output_dir_var dir s
  | RunAfter =>
      match after_queue s with
      | [] => s
      | (successful, failed) :: rest =>
          callback (finish_optimization successful failed)
                   (set_after_queue rest s)
      end
  end.

Definition handle_all (evs : list event) (s : State) : State :=
  fold_left (fun s ev => handle ev s) evs s.

(** Lines 139-155 and the widget defaults of [create_ui]. *)
Definition initial : State :=
  {| selected_files := 0%nat;
     output_directory := "";
     processing := false;
     optimization_thread := [];
     vars := {| jpg_quality_var := DEFAULTS.jpg_quality;
                png_compression_var := DEFAULTS.png_compression;
                resize_enabled := DEFAULTS.resize_enabled;
                max_width_var := DEFAULTS.max_width;
                max_height_var := DEFAULTS.max_height;
                convert_format_var := DEFAULTS.convert_format;
                preserve_names_var := DEFAULTS.preserve_names |};
     output_dir_var := "";
     files_list := [];
     file_count_var := TEXTS.no_files;
     progress_var := PyFloat.Finite 0;
     status_var := TEXTS.ready;
     optimize_btn := NORMAL;
     cancel_btn := DISABLED;
     heap := {[ 0%nat := [] ]};
     after_queue := [];
     dialogs := [];
     stdout := [];
     written := [] |}.

End Control.

(** ** [process_images], the worker context *)

Section Worker.
Local Open Scope string_scope.
Local Open Scope py_scope.

(** The local variables of [process_images]. *)
Record counters : Type := {
  total_files : Z;
  processed : Z;
  successful : Z;
  failed : Z
}.

Definition count_success (c : counters) : counters :=
  {| total_files := total_files c; processed := processed c;
     successful := successful c + 1; failed := failed c |}.
Definition count_failure (c : counters) : counters :=
  {| total_files := total_files c; processed := processed c;
     successful := successful c; failed := failed c + 1 |}.
Definition count_processed (c : counters) : counters :=
  {| total_files := total_files c; processed := processed c + 1;
     successful := successful c; failed := failed c |}.

(** [(processed / total_files) * 100]. *)
Definition percentage (processed total : Z) : result PyFloat.float :=
  let* fraction := PyFloat.int_truediv processed total in
  let* hundred := PyFloat.float_of_int 100 in
  Ok (PyFloat.float_mul fraction hundred).

(** Lines 644-669: the body of the loop once the flag has been read,
    for the item of index [i]. *)
Definition iteration (W : World) (settings : Settings) (i : nat)
    (file_path : string) (c : counters) : M counters :=
  c <- try_except
         (modify (set_status_var
                    (TEXTS.processing (PyStr.basename file_path))) ;;
          success <- optimize_image W file_path settings ;;
          ret (if success : bool then count_success c else count_failure c))
         (fun e =>
            print ("Error processing " ++ file_path ++ ": " ++ exn_str e) ;;
            ret (count_failure c)) ;;
  let c := count_processed c in
  progress <- lift (percentage (processed c) (total_files c)) ;;
  modify (set_progress_var progress) ;;
  (if (Z.of_nat i mod 5 =? 0)%Z || (Z.of_nat i =? total_files c - 1)%Z
   then modify (set_status_var
                  (TEXTS.progress (processed c) (total_files c)
                                  (successful c) (failed c)))
   else ret tt) ;;
  ret c.

(** How the loop was left. *)
Inductive loop_exit : Type :=
| Exhausted   (* the iterator had no further item *)
| Broke.      (* [self.processing] was read false *)

(** The worker's variables when the loop is left, and the items it has
    handed to [optimize_image], in order. *)
Record report : Type := {
  locals : counters;
  visited : list string;
  exit : loop_exit
}.

(** Lines 640-669 while the control context is quiet: the remaining
    items are [items], the next index is [i]. *)
Fixpoint loop_quiet (Ws : nat -> World) (settings : Settings)
    (items : list string) (i : nat) (c : counters) (seen : list string)
    : M report :=
  match items with
  | [] => ret {| locals := c; visited := seen; exit := Exhausted |}
  | file_path :: rest =>
      running <- gets processing ;;
      if running : bool then
        c <- iteration (Ws i) settings i file_path c ;;
        loop_quiet Ws settings rest (S i) c (seen ++ [file_path])%list
      else ret {| locals := c; visited := seen; exit := Broke |}
  end.

(** Lines 640-669.  The control context runs on another thread: the
    head of [schedule] is what it does before the worker next asks the
    list iterator for an item, and so on; past the end of the schedule
    it does nothing more.  The iterator reads the list object [files]
    afresh at every step. *)
Fixpoint loop (Ws : nat -> World) (settings : Settings)
    (schedule : list (list event)) (files : ref) (i : nat) (c : counters)
    (seen : list string) : M report :=
  match schedule with
  | [] =>
      items <- gets (fun s => drop i (deref s files)) ;;
      loop_quiet Ws settings items i c seen
  | evs :: schedule =>
      modify (handle_all evs) ;;
      item <- gets (fun s => deref s files !! i) ;;
      match item with
      | None => ret {| locals := c; visited := seen; exit := Exhausted |}
      | Some file_path =>
          running <- gets processing ;;
          if running : bool then
            c <- iteration (Ws i) settings i file_path c ;;
            loop Ws settings schedule files (S i) c
                 (seen ++ [file_path])%list
          else ret {| locals := c; visited := seen; exit := Broke |}
      end
  end.

(** Lines 635-638. *)
Definition initial_counters (total : Z) : counters :=
  {| total_files := total; processed := 0; successful := 0; failed := 0 |}.

(** Lines 633-672.  [files] is the list object the thread was given. *)
Definition process_images (Ws : nat -> World) (schedule : list (list event))
    (files : ref) (settings : Settings) : M report :=
  total <- gets (fun s => Z.of_nat (length (deref s files))) ;;
  r <- loop Ws settings schedule files 0 (initial_counters total) [] ;;
  modify (fun s =>
    set_after_queue
      (after_queue s ++ [(successful (locals r), failed (locals r))]) s) ;;
  ret r.

End Worker.

(** ** The life of the application

    The application starts in [initial]; the main loop handles an event;
    a started thread runs [process_images] while the main loop handles
    the events of a schedule. *)

Inductive reachable : State -> Prop :=
| reachable_initial : reachable initial
| reachable_event (s : State) (ev : event) :
    reachable s -> reachable (handle ev s)
| reachable_worker (s : State) (Ws : nat -> World)
    (schedule : list (list event)) (files : ref) (settings : Settings) :
    reachable s ->
    In (files, settings) (optimization_thread s) ->
    reachable (snd (process_images Ws schedule files settings s)).

(** The part of the state that only the control context writes. *)
Definition same_control (s s' : State) : Prop :=
  processing s' = processing s
  /\ optimize_btn s' = optimize_btn s
  /\ cancel_btn s' = cancel_btn s
  /\ heap s' = heap s
  /\ selected_files s' = selected_files s
  /\ optimization_thread s' = optimization_thread s
  /\ after_queue s' = after_queue s
  /\ dialogs s' = dialogs s.

(** The list object [files] is still there and has only been appended
    to. *)
Definition grows (files : ref) (s s' : State) : Prop :=
  files ∈ dom (heap s')
  /\ exists more : list string, deref s' files = deref s files ++ more.

(** The selection and the list of every thread are objects of the
    heap. *)
Definition live (s : State) : Prop :=
  selected_files s ∈ dom (heap s)
  /\ forall files settings,
       In (files, settings) (optimization_thread s) ->
       files ∈ dom (heap s).


(** The number of [items] that [optimize_image] handles successfully,
    the first item having index [i]. *)
Fixpoint successes (Ws : nat -> World) (settings : Settings) (i : nat)
    (items : list string) : Z :=
  match items with
  | [] => 0
  | file_path :: rest =>
      (if is_ok (optimize_image_body (Ws i) file_path settings)
       then 1 else 0)
      + successes Ws settings (S i) rest
  end.

(** ** Sample inputs *)

Section Samples.
Local Open Scope string_scope.

Definition sample_image : PIL.image :=
  {| PIL.size := (4000, 3000); PIL.mode := "RGB";
     PIL.format := Some "JPEG"; PIL.data := PIL.Decoded "/in/a.jpg" |}.
Definition sample_world : World :=
  {| os_path_exists := fun _ => true;
     os_makedirs := fun _ => None;
     time_time := 1700000000;
     Image_open := fun p => Ok sample_image;
     resize_fault := fun _ _ => None;
     save_fault := fun _ _ _ => None |}.
Definition sample_settings : Settings :=
  {| jpg_quality := 85; png_compression := 6; resize := true;
     max_width := 1920; max_height := 1080; convert_format := "original";
     preserve_names := true; output_dir := "/out" |}.

Definition sliver : PIL.image :=
  {| PIL.size := (1, 2000); PIL.mode := "RGB";
     PIL.format := Some "PNG"; PIL.data := PIL.Decoded "/in/line.png" |}.


(** A width field holding ["0"], one holding the superscript two. *)
Definition zero_width_vars : Vars :=
  {| jpg_quality_var := 85; png_compression_var := 6;
     resize_enabled := true; max_width_var := "0";
     max_height_var := "1080"; convert_format_var := "original";
     preserve_names_var := true |}.

Definition superscript_two : string := String (ascii_of_nat 178) "".

Definition superscript_width_vars : Vars :=
  {| jpg_quality_var := 85; png_compression_var := 6;
     resize_enabled := true; max_width_var := superscript_two;
     max_height_var := "1080"; convert_format_var := "original";
     preserve_names_var := true |}.




(** One file selected and the run started. *)
Definition one_file_running : State :=
  handle (ClickStart sample_world)
    (handle (ClickSelectImages ["/in/a.jpg"]) initial).

(** After the first item the user adds a folder holding one image. *)
Definition folder_added : list (list event) :=
  [[]; [ClickSelectFolder "/more" [("/more", ["b.png"; "notes.txt"])]]].



End Samples.

(** * Properties *)

(** ** Rounding to binary64

    What the resize step needs of [fl]: it is monotone, it leaves every
    number with a significand below [2^53] alone, and it moves a number
    by at most one part in [2^53]. *)

Module PyFloatFacts.
Import PyFloat.
Local Open Scope Q_scope.

(** The model against the hardware on a few operands, among them
    [49 * (1 / 49)], which is below one. *)
Example hardware_agrees :
  forallb (fun '(m, w) => agrees_with_hardware m w)
    [(1, 49); (1920, 3822); (1080, 2000); (1920, 4000); (1, 3);
     (2147483647, 2147483646); (7, 2147483647); (1920, 1)]%Z
  = true.
Proof. vm_compute. reflexivity. Qed.

Lemma two_neq_0 : ~ 2 == 0.
Proof. intros H; discriminate H. Qed.

Lemma pow2_pos (e : Z) : 0 < 2 ^ e.
Proof. apply Qpower_0_lt. reflexivity. Qed.

Lemma pow2_add (a b : Z) : 2 ^ (a + b) == 2 ^ a * 2 ^ b.
Proof. apply Qpower_plus, two_neq_0. Qed.

Lemma pow2_succ (a : Z) : 2 ^ (a + 1) == 2 * 2 ^ a.
Proof. rewrite pow2_add. change (2 ^ 1) with 2. ring. Qed.

Lemma pow2_le (a b : Z) : (a <= b)%Z -> 2 ^ a <= 2 ^ b.
Proof. intros H. apply Qpower_le_compat_l; [exact H | discriminate]. Qed.

Lemma pow2_lt (a b : Z) : (a < b)%Z -> 2 ^ a < 2 ^ b.
Proof. intros H. apply Qpower_lt_compat_l; [exact H | reflexivity]. Qed.

Lemma pow2_lt_inv (a b : Z) : 2 ^ a < 2 ^ b -> (a < b)%Z.
Proof. intros H. apply (Qpower_lt_compat_l_inv 2); [exact H | reflexivity]. Qed.

Lemma pow2_inject (n : Z) : (0 <= n)%Z -> inject_Z (2 ^ n) == 2 ^ n.
Proof. intros H. apply (Zpower_Qpower 2 n H). Qed.

Lemma pow2_div (x : Q) (e : Z) : x / 2 ^ e * 2 ^ e == x.
Proof. field. apply Qpower_not_0, two_neq_0. Qed.

(** *** The binade of a positive rational *)

Lemma ilog2_spec (x : Q) :
  0 < x -> 2 ^ ilog2 x <= x /\ x < 2 ^ (ilog2 x + 1).
Proof.
  intros Hx. destruct x as [n d].
  assert (Hn : (0 < n)%Z) by (unfold Qlt in Hx; simpl in Hx; lia).
  unfold ilog2. cbn [Qnum Qden].
  set (a := Z.log2 n). set (b := Z.log2 (Z.pos d)).
  destruct (Z.log2_spec n Hn) as [Ha1 Ha2]. fold a in Ha1, Ha2.
  destruct (Z.log2_spec (Z.pos d) eq_refl) as [Hb1 Hb2]. fold b in Hb1, Hb2.
  assert (Ha0 : (0 <= a)%Z) by apply Z.log2_nonneg.
  assert (Hb0 : (0 <= b)%Z) by apply Z.log2_nonneg.
  rewrite Zle_Qle, pow2_inject in Ha1 by lia.
  rewrite Zlt_Qlt, pow2_inject in Ha2 by lia.
  rewrite Zle_Qle, pow2_inject in Hb1 by lia.
  rewrite Zlt_Qlt, pow2_inject in Hb2 by lia.
  assert (Hd : 0 < inject_Z (Z.pos d)) by reflexivity.
  assert (Hq : n # d == inject_Z n / inject_Z (Z.pos d)) by apply Qmake_Qdiv.
  assert (Hup : n # d < 2 ^ (a - b + 1)).
  { rewrite Hq. apply Qlt_shift_div_r; [exact Hd|].
    apply Qlt_le_trans with (1 := Ha2).
    replace (Z.succ a) with ((a - b + 1) + b)%Z by lia.
    rewrite pow2_add. apply Qmult_le_l; [apply pow2_pos | exact Hb1]. }
  destruct (Qle_bool (2 ^ (a - b)) (n # d)) eqn:Hc.
  - apply Qle_bool_iff in Hc. split; assumption.
  - assert (Hlt : n # d < 2 ^ (a - b)).
    { apply Qnot_le_lt. intros H. apply Qle_bool_iff in H. congruence. }
    split.
    + rewrite Hq. apply Qle_shift_div_l; [exact Hd|].
      apply Qle_trans with (2 := Ha1).
      replace a with ((a - b - 1) + Z.succ b)%Z at 2 by lia.
      rewrite pow2_add. apply Qmult_le_l; [apply pow2_pos|].
      apply Qlt_le_weak, Hb2.
    + replace (a - b - 1 + 1)%Z with (a - b)%Z by lia. exact Hlt.
Qed.

Lemma ilog2_mono (x y : Q) : 0 < x -> x <= y -> (ilog2 x <= ilog2 y)%Z.
Proof.
  intros Hx Hxy.
  destruct (ilog2_spec x Hx) as [H1 _].
  destruct (ilog2_spec y) as [_ H2]; [lra|].
  assert (H : 2 ^ ilog2 x < 2 ^ (ilog2 y + 1)) by lra.
  apply pow2_lt_inv in H. lia.
Qed.

(** *** Rounding to the nearest integer *)

Lemma rne_cases (x : Q) :
  let f := Qfloor x in
  (rne x = f /\ x - inject_Z f <= 1 # 2) \/
  (rne x = (f + 1)%Z /\ 1 # 2 <= x - inject_Z f).
Proof.
  intros f. unfold rne. fold f.
  destruct (Qcompare_spec (x - inject_Z f) (1 # 2)) as [H|H|H].
  - destruct (Z.even f); [left | right]; split; try reflexivity; lra.
  - left. split; [reflexivity | lra].
  - right. split; [reflexivity | lra].
Qed.

Lemma rne_inject (k : Z) : rne (inject_Z k) = k.
Proof.
  unfold rne. rewrite Qfloor_Z.
  destruct (Qcompare_spec (inject_Z k - inject_Z k) (1 # 2)) as [H|H|H];
    [lra | reflexivity | lra].
Qed.

Lemma rne_comp (x y : Q) : x == y -> rne x = rne y.
Proof.
  intros H. unfold rne. rewrite (Qfloor_comp _ _ H).
  assert (E : x - inject_Z (Qfloor y) == y - inject_Z (Qfloor y)) by lra.
  rewrite E. reflexivity.
Qed.

Lemma rne_mono (x y : Q) : x <= y -> (rne x <= rne y)%Z.
Proof.
  intros Hxy.
  pose proof (Qfloor_resp_le _ _ Hxy) as Hf.
  pose proof (Qfloor_le x) as Hx1. pose proof (Qlt_floor x) as Hx2.
  pose proof (Qfloor_le y) as Hy1. pose proof (Qlt_floor y) as Hy2.
  rewrite inject_Z_plus in Hx2, Hy2.
  destruct (Z.eq_dec (Qfloor x) (Qfloor y)) as [E|NE].
  - unfold rne. rewrite <- E.
    destruct (Qcompare_spec (x - inject_Z (Qfloor x)) (1 # 2)) as [H|H|H];
    destruct (Qcompare_spec (y - inject_Z (Qfloor x)) (1 # 2)) as [H'|H'|H'];
    try lra; destruct (Z.even (Qfloor x)); lia.
  - destruct (rne_cases x) as [[-> _]|[-> _]];
    destruct (rne_cases y) as [[-> _]|[-> _]]; lia.
Qed.


Lemma rne_lower (x : Q) : x - (1 # 2) <= inject_Z (rne x).
Proof.
  pose proof (Qlt_floor x) as Hx2. rewrite inject_Z_plus in Hx2.
  change (inject_Z 1) with 1 in Hx2.
  destruct (rne_cases x) as [[-> H]|[-> H]].
  - lra.
  - rewrite inject_Z_plus. change (inject_Z 1) with 1. lra.
Qed.

(** *** Rounding to 53 significant bits *)

Lemma scaled_range (x : Q) :
  0 < x ->
  2 ^ 52 <= x / 2 ^ (ilog2 x - 52) /\ x / 2 ^ (ilog2 x - 52) < 2 ^ 53.
Proof.
  intros Hx. destruct (ilog2_spec x Hx) as [H1 H2].
  set (e := (ilog2 x - 52)%Z).
  pose proof (pow2_pos e) as He.
  split.
  - apply Qle_shift_div_l; [exact He|].
    rewrite <- pow2_add. replace (52 + e)%Z with (ilog2 x) by (unfold e; lia).
    exact H1.
  - apply Qlt_shift_div_r; [exact He|].
    rewrite <- pow2_add.
    replace (53 + e)%Z with (ilog2 x + 1)%Z by (unfold e; lia).
    exact H2.
Qed.

Lemma round_pos_range (x : Q) :
  0 < x -> 2 ^ ilog2 x <= round_pos x /\ round_pos x <= 2 ^ (ilog2 x + 1).
Proof.
  intros Hx. destruct (scaled_range x Hx) as [H1 H2].
  unfold round_pos. set (e := (ilog2 x - 52)%Z) in *.
  pose proof (pow2_pos e) as He.
  assert (Hlo : (2 ^ 52 <= rne (x / 2 ^ e))%Z).
  { rewrite <- (rne_inject (2 ^ 52)). apply rne_mono.
    rewrite pow2_inject by lia. exact H1. }
  assert (Hhi : (rne (x / 2 ^ e) <= 2 ^ 53)%Z).
  { rewrite <- (rne_inject (2 ^ 53)). apply rne_mono.
    rewrite pow2_inject by lia. apply Qlt_le_weak, H2. }
  rewrite Zle_Qle, pow2_inject in Hlo by lia.
  rewrite Zle_Qle, pow2_inject in Hhi by lia.
  split.
  - replace (ilog2 x) with (52 + e)%Z by (unfold e; lia).
    rewrite pow2_add. apply Qmult_le_compat_r; [exact Hlo | lra].
  - replace (ilog2 x + 1)%Z with (53 + e)%Z by (unfold e; lia).
    rewrite pow2_add. apply Qmult_le_compat_r; [exact Hhi | lra].
Qed.


Lemma round_pos_exact (x : Q) (n k : Z) :
  (0 < n < 2 ^ 53)%Z -> x == inject_Z n * 2 ^ k -> round_pos x == x.
Proof.
  intros Hn Hx.
  assert (Hn1 : 0 < inject_Z n) by (rewrite (Zlt_Qlt 0 n) in Hn; tauto).
  assert (Hn2 : inject_Z n < 2 ^ 53).
  { rewrite <- pow2_inject by lia. rewrite <- Zlt_Qlt. lia. }
  pose proof (pow2_pos k) as Hk.
  assert (Hpos : 0 < x).
  { rewrite Hx. apply Qmult_lt_0_compat; assumption. }
  destruct (ilog2_spec x Hpos) as [H1 _].
  unfold round_pos. set (e := (ilog2 x - 52)%Z) in *.
  assert (Hke : (e <= k)%Z).
  { destruct (Z_le_gt_dec e k) as [|Hgt]; [assumption | exfalso].
    assert (Hc : x < 2 ^ ilog2 x); [|lra].
    apply Qle_lt_trans with (inject_Z n * 2 ^ k); [rewrite Hx at 1; lra|].
    apply Qlt_le_trans with (2 ^ 53 * 2 ^ k).
    - apply Qmult_lt_compat_r; assumption.
    - rewrite <- pow2_add. apply pow2_le. unfold e in Hgt. lia. }
  assert (Hs : x / 2 ^ e == inject_Z (n * 2 ^ (k - e))).
  { rewrite inject_Z_mult, pow2_inject by lia.
    rewrite Hx. replace k with ((k - e) + e)%Z at 1 by lia.
    rewrite pow2_add. field. apply Qpower_not_0, two_neq_0. }
  rewrite (rne_comp _ _ Hs), rne_inject, <- Hs. apply pow2_div.
Qed.

Lemma round_pos_mono (x y : Q) :
  0 < x -> x <= y -> round_pos x <= round_pos y.
Proof.
  intros Hx Hxy.
  assert (Hy : 0 < y) by lra.
  pose proof (ilog2_mono x y Hx Hxy) as HL.
  destruct (Z.eq_dec (ilog2 x) (ilog2 y)) as [E|NE].
  - unfold round_pos. rewrite E. set (e := (ilog2 y - 52)%Z).
    pose proof (pow2_pos e) as He.
    apply Qmult_le_compat_r; [|lra].
    rewrite <- Zle_Qle. apply rne_mono.
    apply Qmult_le_compat_r; [exact Hxy|].
    apply Qlt_le_weak, Qinv_lt_0_compat, He.
  - destruct (round_pos_range x Hx) as [_ H1].
    destruct (round_pos_range y Hy) as [H2 _].
    apply Qle_trans with (1 := H1). apply Qle_trans with (2 := H2).
    apply pow2_le. lia.
Qed.

(** *** [fl] on non-negative rationals *)

Lemma fl_pos (x : Q) : 0 < x -> fl x = round_pos x.
Proof.
  intros Hx. unfold fl.
  destruct (Qcompare_spec 0 x) as [H|H|H]; [lra | reflexivity | lra].
Qed.

Lemma fl_zero (x : Q) : x == 0 -> fl x = 0.
Proof.
  intros Hx. unfold fl.
  destruct (Qcompare_spec 0 x) as [H|H|H]; [reflexivity | lra | lra].
Qed.

Lemma fl_nonneg (x : Q) : 0 <= x -> 0 <= fl x.
Proof.
  intros Hx. destruct (Qlt_le_dec 0 x) as [Hp|Hz].
  - rewrite fl_pos by assumption.
    destruct (round_pos_range x Hp) as [H _].
    pose proof (pow2_pos (ilog2 x)). lra.
  - rewrite fl_zero by lra. lra.
Qed.

Lemma fl_mono (x y : Q) : 0 <= x -> x <= y -> fl x <= fl y.
Proof.
  intros Hx Hxy. destruct (Qlt_le_dec 0 x) as [Hp|Hz].
  - rewrite !fl_pos by lra. apply round_pos_mono; assumption.
  - rewrite (fl_zero x) by lra. apply fl_nonneg. lra.
Qed.

Lemma fl_exact (x : Q) (n k : Z) :
  (0 <= n < 2 ^ 53)%Z -> x == inject_Z n * 2 ^ k -> fl x == x.
Proof.
  intros Hn Hx. destruct (Z.eq_dec n 0%Z) as [->|Hn0].
  - assert (H0 : x == 0) by (rewrite Hx; ring).
    rewrite fl_zero by assumption. symmetry. exact H0.
  - assert (Hp : 0 < x).
    { rewrite Hx. apply Qmult_lt_0_compat; [|apply pow2_pos].
      change 0 with (inject_Z 0). rewrite <- Zlt_Qlt. lia. }
    rewrite fl_pos by assumption.
    apply (round_pos_exact x n k); [lia | exact Hx].
Qed.

Lemma fl_int (n : Z) : (0 <= n < 2 ^ 53)%Z -> fl (inject_Z n) == inject_Z n.
Proof.
  intros Hn. apply (fl_exact _ n 0 Hn). change (2 ^ 0) with 1. ring.
Qed.


End PyFloatFacts.

(** ** The resize step *)

Module ResizeFacts.
Import PyFloat PyFloatFacts.
Local Open Scope Q_scope.

Lemma fl_comp (x y : Q) : 0 <= x -> x == y -> fl x == fl y.
Proof.
  intros Hx Hxy. apply Qle_antisym; apply fl_mono; lra.
Qed.

Lemma pow2_Z (n : Z) (k : Z) :
  (0 <= k)%Z -> (n < 2 ^ k)%Z -> inject_Z n < 2 ^ k.
Proof.
  intros Hk Hn. rewrite <- pow2_inject by assumption.
  rewrite <- Zlt_Qlt. exact Hn.
Qed.

Lemma Qtrunc_floor (x : Q) : 0 <= x -> Qtrunc x = Qfloor x.
Proof.
  intros Hx. destruct x as [n d]. unfold Qtrunc, Qfloor. cbn [Qnum Qden].
  apply Z.quot_div_nonneg; [|reflexivity].
  unfold Qle in Hx. simpl in Hx. lia.
Qed.

Lemma not_overflows (x : Q) : 0 <= x -> x < 2 ^ 1024 -> overflows x = false.
Proof.
  intros H0 H1. unfold overflows.
  destruct (Qle_bool (2 ^ 1024) (Qabs x)) eqn:E; [|reflexivity].
  apply Qle_bool_iff in E. rewrite Qabs_pos in E by assumption. lra.
Qed.



Lemma fl_one : fl 1 == 1.
Proof. apply (fl_exact 1 1 0); [lia | reflexivity]. Qed.

Lemma Qdiv_nonneg (a b : Z) :
  (0 <= a)%Z -> (0 < b)%Z -> 0 <= inject_Z a / inject_Z b.
Proof.
  intros Ha Hb. apply Qle_shift_div_l.
  - change 0 with (inject_Z 0). rewrite <- Zlt_Qlt. exact Hb.
  - rewrite Qmult_0_l. change 0 with (inject_Z 0). rewrite <- Zle_Qle.
    exact Ha.
Qed.

Lemma Qdiv_le_num (a b : Z) :
  (0 <= a)%Z -> (0 < b)%Z -> inject_Z a / inject_Z b <= inject_Z a.
Proof.
  intros Ha Hb. apply Qle_shift_div_r.
  - change 0 with (inject_Z 0). rewrite <- Zlt_Qlt. exact Hb.
  - rewrite <- inject_Z_mult, <- Zle_Qle. nia.
Qed.

Lemma Qdiv_le_1 (a b : Z) :
  (0 < b)%Z -> (a <= b)%Z -> inject_Z a / inject_Z b <= 1.
Proof.
  intros Hb Hab. apply Qle_shift_div_r.
  - change 0 with (inject_Z 0). rewrite <- Zlt_Qlt. exact Hb.
  - rewrite Qmult_1_l, <- Zle_Qle. exact Hab.
Qed.

(** [a / b] neither fails nor overflows on the operands of the resize
    step. *)
Lemma int_truediv_ok (a b : Z) :
  (0 <= a < 2 ^ 1023)%Z -> (0 < b)%Z ->
  int_truediv a b = Ok (fl (inject_Z a / inject_Z b)).
Proof.
  intros Ha Hb. unfold int_truediv.
  destruct (Z.eqb_spec b 0) as [->|_]; [lia|].
  rewrite not_overflows; [reflexivity | |].
  - apply fl_nonneg, Qdiv_nonneg; lia.
  - apply Qle_lt_trans with (fl (2 ^ 1023)).
    + apply fl_mono; [apply Qdiv_nonneg; lia|].
      apply Qle_trans with (inject_Z a); [apply Qdiv_le_num; lia|].
      apply Qlt_le_weak, pow2_Z; lia.
    + rewrite (fl_exact (2 ^ 1023) 1 1023); [apply pow2_lt; lia | lia |].
      change (inject_Z 1) with 1. ring.
Qed.

(** [int(n * x)] for a dimension [n] and a ratio [x] of at most one. *)
Lemma int_mul_float_ok (n : Z) (x : Q) :
  (0 <= n < 2 ^ 52)%Z -> 0 <= x -> x <= 1 ->
  rbind (int_mul_float n x) int_of_float
  = Ok (Qfloor (fl (inject_Z n * x))).
Proof.
  intros Hn Hx0 Hx1.
  assert (Hn0 : 0 <= inject_Z n).
  { change 0 with (inject_Z 0). rewrite <- Zle_Qle. lia. }
  assert (Hn1 : inject_Z n < 2 ^ 52) by (apply pow2_Z; lia).
  pose proof (fl_int n ltac:(lia)) as Hfn.
  assert (Hp : 0 <= inject_Z n * x) by (apply Qmult_le_0_compat; assumption).
  assert (Hpn : inject_Z n * x <= inject_Z n).
  { apply Qle_trans with (1 * inject_Z n); [|lra].
    rewrite (Qmult_comm (inject_Z n)).
    apply Qmult_le_compat_r; assumption. }
  assert (H52 : (2 ^ 52 : Q) < 2 ^ 1024) by (apply pow2_lt; lia).
  unfold int_mul_float, float_of_int.
  rewrite not_overflows by (rewrite Hfn; lra).
  cbn [rbind]. unfold float_mul.
  assert (Hc : fl (fl (inject_Z n) * x) == fl (inject_Z n * x)).
  { apply fl_comp.
    - rewrite Hfn. exact Hp.
    - rewrite Hfn. reflexivity. }
  assert (Hle : fl (inject_Z n * x) <= inject_Z n).
  { rewrite <- Hfn at 2. apply fl_mono; assumption. }
  assert (H0 : 0 <= fl (inject_Z n * x)) by (apply fl_nonneg, Hp).
  rewrite not_overflows by (rewrite Hc; lra).
  cbn [int_of_float]. f_equal.
  rewrite Qtrunc_floor by (rewrite Hc; exact H0).
  apply Qfloor_comp, Hc.
Qed.

Lemma Qfloor_below (y : Q) (k : Z) : y < inject_Z (k + 1) -> (Qfloor y <= k)%Z.
Proof.
  intros Hy. pose proof (Qfloor_le y) as Hf.
  assert (H : inject_Z (Qfloor y) < inject_Z (k + 1)) by lra.
  rewrite <- Zlt_Qlt in H. lia.
Qed.

Lemma Qmult_le_mono_nonneg (a x y : Q) : 0 <= a -> x <= y -> a * x <= a * y.
Proof.
  intros Ha Hxy. rewrite (Qmult_comm a x), (Qmult_comm a y).
  apply Qmult_le_compat_r; assumption.
Qed.

(** A dimension scaled by a ratio of at most one does not grow. *)
Lemma scaled_le_self (n : Z) (r : Q) :
  (0 <= n < 2 ^ 52)%Z -> 0 <= r -> r <= 1 ->
  (0 <= Qfloor (fl (inject_Z n * r)) <= n)%Z.
Proof.
  intros Hn Hr0 Hr1.
  assert (Hn0 : 0 <= inject_Z n).
  { change 0 with (inject_Z 0). rewrite <- Zle_Qle. lia. }
  assert (Hp : 0 <= inject_Z n * r) by (apply Qmult_le_0_compat; assumption).
  split.
  - rewrite <- (Qfloor_Z 0). apply Qfloor_resp_le, fl_nonneg, Hp.
  - rewrite <- (Qfloor_Z n) at 2. apply Qfloor_resp_le.
    apply Qle_trans with (fl (inject_Z n)); [|rewrite fl_int by lia; lra].
    apply fl_mono; [exact Hp|].
    apply Qle_trans with (inject_Z n * 1); [|lra].
    apply Qmult_le_mono_nonneg; assumption.
Qed.


Lemma min_le_l (x y : Q) : PyFloat.min x y <= x.
Proof. unfold PyFloat.min. destruct (Qlt_le_dec y x); lra. Qed.

Lemma min_le_r (x y : Q) : PyFloat.min x y <= y.
Proof. unfold PyFloat.min. destruct (Qlt_le_dec y x); lra. Qed.

Lemma min_nonneg (x y : Q) : 0 <= x -> 0 <= y -> 0 <= PyFloat.min x y.
Proof. unfold PyFloat.min. destruct (Qlt_le_dec y x); lra. Qed.

(** The computation of lines 689-694 on an image that exceeds a bound. *)
Section Dimensions.
Variables mw mh w h : Z.
Hypothesis Hw : (0 < w < 2 ^ 31)%Z.
Hypothesis Hh : (0 < h < 2 ^ 31)%Z.
Hypothesis Hmw : (0 <= mw < 2 ^ 1023)%Z.
Hypothesis Hmh : (0 <= mh < 2 ^ 1023)%Z.
Hypothesis Hex : (mw < w \/ mh < h)%Z.

Let width_ratio : Q := fl (inject_Z mw / inject_Z w).
Let height_ratio : Q := fl (inject_Z mh / inject_Z h).
Let ratio : Q := PyFloat.min width_ratio height_ratio.

Lemma ratio_range : 0 <= ratio /\ ratio <= 1.
Proof using Hw Hh Hmw Hmh Hex.
  assert (H1 : 0 <= width_ratio) by (apply fl_nonneg, Qdiv_nonneg; lia).
  assert (H2 : 0 <= height_ratio) by (apply fl_nonneg, Qdiv_nonneg; lia).
  split; [apply min_nonneg; assumption|].
  destruct Hex as [H|H].
  - apply Qle_trans with width_ratio; [apply min_le_l|].
    apply Qle_trans with (fl 1); [|rewrite fl_one; lra].
    apply fl_mono; [apply Qdiv_nonneg; lia | apply Qdiv_le_1; lia].
  - apply Qle_trans with height_ratio; [apply min_le_r|].
    apply Qle_trans with (fl 1); [|rewrite fl_one; lra].
    apply fl_mono; [apply Qdiv_nonneg; lia | apply Qdiv_le_1; lia].
Qed.

Lemma resize_dimensions_eq :
  resize_dimensions mw mh w h
  = Ok (Qfloor (fl (inject_Z w * ratio)), Qfloor (fl (inject_Z h * ratio))).
Proof using Hw Hh Hmw Hmh Hex.
  destruct ratio_range as [H0 H1].
  unfold resize_dimensions.
  rewrite !int_truediv_ok by lia. cbn [rbind].
  fold width_ratio height_ratio ratio.
  pose proof (int_mul_float_ok w ratio ltac:(lia) H0 H1) as Ew.
  pose proof (int_mul_float_ok h ratio ltac:(lia) H0 H1) as Eh.
  destruct (int_mul_float w ratio) as [pw|]; [|discriminate Ew].
  cbn [rbind] in Ew |- *. rewrite Ew. cbn [rbind].
  destruct (int_mul_float h ratio) as [ph|]; [|discriminate Eh].
  cbn [rbind] in Eh |- *. rewrite Eh. reflexivity.
Qed.




End Dimensions.



Lemma exceeds_spec (settings : Settings) (w h : Z) :
  exceeds settings (w, h) = true
  <-> (w > max_width settings \/ h > max_height settings)%Z.
Proof.
  unfold exceeds. cbn [fst snd]. rewrite orb_true_iff.
  rewrite !Z.gtb_ltb, !Z.ltb_lt. lia.
Qed.

(** The sizes asked of [img.resize] for a few images under the default
    bounds.  The products are rounded before [int] truncates them:
    [3822 * (1920 / 3822)] falls just below [1920]. *)
Example resize_dimensions_examples :
  resize_dimensions 1920 1080 4000 3000 = Ok (1440, 1080)%Z
  /\ resize_dimensions 1920 1080 3840 2160 = Ok (1920, 1080)%Z
  /\ resize_dimensions 1920 1080 3822 100 = Ok (1919, 50)%Z
  /\ resize_dimensions 1920 1080 1 2000 = Ok (0, 1080)%Z
  /\ resize_dimensions 1920 1080 100 0 = Raise ZeroDivisionError.
Proof. repeat split; vm_compute; reflexivity. Qed.

End ResizeFacts.

Import PyFloat PyFloatFacts ResizeFacts.





(** C10.  An image one pixel wide and higher than [max_height] is asked
    to be resized to width zero: [int(1 * ratio)] is [0] because the
    ratio is below one.  Pillow refuses such a size. *)
Theorem zero_width_requested (W : World) (settings : Settings)
    (img : PIL.image) (h : Z) :
  resize settings = true ->
  PIL.size img = (1, h) ->
  0 < max_width settings < 2 ^ 1023 ->
  0 < max_height settings < h ->
  h < 2 ^ 31 ->
  exists new_height : Z,
    resize_dimensions (max_width settings) (max_height settings) 1 h
    = Ok (0, new_height)
    /\ resize_step W settings img = Pillow.resize W img (0, new_height)
    /\ resize_step W settings img
       = Raise (ValueError "height and width must be > 0").
Proof.
  intros Hres Hsz Hmw Hmh Hh.
  set (mw := max_width settings) in *. set (mh := max_height settings) in *.
  assert (Hex' : mw < 1 \/ mh < h) by lia.
  destruct (ratio_range mw mh 1 h) as [R0 R1]; try lia.
  pose proof (resize_dimensions_eq mw mh 1 h ltac:(lia) ltac:(lia)
                ltac:(lia) ltac:(lia) Hex') as Hdim.
  cbv zeta in R0, R1, Hdim.
  set (ratio := PyFloat.min (fl (inject_Z mw / inject_Z 1))
                            (fl (inject_Z mh / inject_Z h))) in *.
  assert (Hz : Qfloor (fl (inject_Z 1 * ratio)) = 0).
  { pose proof (scaled_le_self 1 ratio ltac:(lia) R0 R1) as [Hlo _].
    apply Z.le_antisymm; [|exact Hlo].
    apply Qfloor_below. change (inject_Z (0 + 1)) with 1%Q.
    assert (Hh0 : (0 < inject_Z h)%Q).
    { change 0%Q with (inject_Z 0). rewrite <- Zlt_Qlt. lia. }
    assert (Hh1 : (inject_Z h < 2 ^ 31)%Q) by (apply pow2_Z; lia).
    assert (Hq : (inject_Z mh / inject_Z h <= 1 - 2 ^ (-31))%Q).
    { apply Qle_shift_div_r; [exact Hh0|].
      assert (Hm : (inject_Z mh <= inject_Z h - 1)%Q).
      { change 1%Q with (inject_Z 1). unfold Qminus.
        rewrite <- inject_Z_opp, <- inject_Z_plus, <- Zle_Qle. lia. }
      change (2 ^ 31)%Q with (2147483648 # 1) in Hh1.
      change (2 ^ (-31))%Q with (1 # 2147483648). lra. }
    assert (He : (fl (1 - 2 ^ (-31)) == 1 - 2 ^ (-31))%Q).
    { apply (fl_exact _ (2 ^ 31 - 1) (-31)); [lia | reflexivity]. }
    apply Qle_lt_trans with (fl (1 - 2 ^ (-31))).
    - apply fl_mono; [apply Qmult_le_0_compat; [discriminate | exact R0]|].
      apply Qle_trans with ratio; [change (inject_Z 1) with 1%Q; lra|].
      apply Qle_trans with (fl (inject_Z mh / inject_Z h));
        [apply min_le_r|].
      apply Qle_trans with (fl (1 - 2 ^ (-31))); [|lra].
      apply fl_mono; [apply Qdiv_nonneg; lia | exact Hq].
    - rewrite He. reflexivity. }
  rewrite Hz in Hdim.
  eexists. split; [exact Hdim|].
  assert (Hstep : resize_step W settings img
                  = Pillow.resize W img
                      (0, Qfloor (fl (inject_Z h * ratio)))).
  { unfold resize_step. rewrite Hres, Hsz.
    assert (Hx : exceeds settings (1, h) = true)
      by (apply exceeds_spec; fold mw mh; lia).
    rewrite Hx. fold mw mh. rewrite Hdim. reflexivity. }
  split; [exact Hstep|]. rewrite Hstep. reflexivity.
Qed.

(** A 1 by 2000 image under the default bounds. *)
Lemma zero_width_requested_witness :
  resize_step sample_world sample_settings sliver
  = Raise (ValueError "height and width must be > 0").
Proof.
  destruct (zero_width_requested sample_world sample_settings sliver 2000)
    as (nh & _ & _ & H);
    [reflexivity | reflexivity | cbn; lia | cbn; lia | lia |].
  exact H.
Defined.

(** ** Output names *)

Module PyStrFacts.
Import PyStr.
Local Open Scope string_scope.

Example splitext_examples :
  splitext "/home/u/pic.tar.gz" = ("/home/u/pic.tar", ".gz")
  /\ splitext "a/b.c/d" = ("a/b.c/d", "")
  /\ splitext ".bashrc" = (".bashrc", "")
  /\ splitext "x/..a.b" = ("x/..a", ".b")
  /\ splitext "a/b." = ("a/b", ".").
Proof. repeat split; reflexivity. Qed.

Example basename_dirname_examples :
  basename "/home/u/pic.png" = "pic.png"
  /\ basename "/home/u/" = ""
  /\ dirname "/home/u/pic.png" = "/home/u"
  /\ dirname "/pic.png" = "/"
  /\ dirname "pic.png" = "".
Proof. repeat split; reflexivity. Qed.

Example join_examples :
  join "/out" "x.png" = "/out/x.png"
  /\ join "/out/" "x.png" = "/out/x.png"
  /\ join "" "x.png" = "x.png"
  /\ join "/out" "/x.png" = "/x.png".
Proof. repeat split; reflexivity. Qed.

Example isdigit_examples :
  isdigit "0123" = true /\ isdigit "" = false /\ isdigit "12a" = false
  /\ isdigit "-5" = false /\ isdigit " 7" = false.
Proof. repeat split; reflexivity. Qed.




End PyStrFacts.




(** ** Reading the resize bounds *)

Module BoundFacts.
Import PyStr.

Lemma digit_value_nonneg (c : ascii) :
  is_decimal c = true -> 0 <= digit_value c <= 9.
Proof.
  unfold is_decimal, digit_value. rewrite andb_true_iff.
  rewrite !N.leb_le. lia.
Qed.

Lemma digits_value_nonneg (s : string) (acc : Z) :
  all_chars is_decimal s = true -> 0 <= acc -> 0 <= digits_value acc s.
Proof.
  revert acc. induction s as [|c s IH]; intros acc H Hacc; [exact Hacc|].
  cbn [all_chars] in H. apply andb_true_iff in H as [Hc Hs].
  cbn [digits_value]. apply IH; [exact Hs|].
  pose proof (digit_value_nonneg c Hc). lia.
Qed.

Lemma all_decimal_isdigit (s : string) :
  all_chars is_decimal s = true -> all_chars char_isdigit s = true.
Proof.
  induction s as [|c s IH]; [reflexivity|]. cbn [all_chars].
  rewrite !andb_true_iff. intros [Hc Hs]. split; [|apply IH, Hs].
  unfold char_isdigit. rewrite Hc. reflexivity.
Qed.

(** A field made of decimal digits is read as the number it spells. *)
Lemma read_bound_digits (raw default : string) :
  raw <> ""%string -> all_chars is_decimal raw = true ->
  read_bound raw default = Ok (digits_value 0 raw).
Proof.
  intros Hne Hd. unfold read_bound, isdigit, int.
  destruct raw as [|c raw]; [contradiction|].
  rewrite (all_decimal_isdigit _ Hd), Hd. reflexivity.
Qed.

(** A field that [isdigit] rejects gives the default. *)
Lemma read_bound_default (raw : string) :
  isdigit raw = false ->
  read_bound raw DEFAULTS.max_width = Ok 1920
  /\ read_bound raw DEFAULTS.max_height = Ok 1080.
Proof.
  intros H. unfold read_bound. rewrite H. split; reflexivity.
Qed.

(** Whatever the field holds, a bound that is read is not negative. *)
Lemma read_bound_nonneg (raw default : string) (n : Z) :
  read_bound raw default = Ok n -> 0 <= n.
Proof.
  unfold read_bound.
  assert (H : forall s, int s = Ok n -> 0 <= n).
  { intros s. unfold int.
    destruct s as [|c s]; [discriminate|].
    destruct (all_chars is_decimal (String c s)) eqn:E; [|discriminate].
    intros [= <-]. apply (digits_value_nonneg (String c s) 0 E). lia. }
  destruct (isdigit raw); apply H.
Qed.

End BoundFacts.

(** C6.  The width field ["0"] passes [isdigit] and is captured as the
    bound [0], which is not positive; the field holding a superscript two
    passes [isdigit] as well and makes [int] raise, so no settings are
    captured at all. *)
Theorem zero_bound_is_captured :
  PyStr.isdigit "0" = true
  /\ read_bound "0" DEFAULTS.max_width = Ok 0
  /\ (exists settings,
        capture_settings (handle (Edit zero_width_vars) initial) "/out"
        = Ok settings /\ max_width settings = 0)
  /\ PyStr.isdigit superscript_two = true
  /\ capture_settings (handle (Edit superscript_width_vars) initial) "/out"
     = Raise (PyStr.invalid_literal superscript_two).
Proof.
  split; [reflexivity|]. split; [reflexivity|].
  split; [eexists; split; reflexivity|].
  split; reflexivity.
Qed.

(** ** Failures of a single image *)


(** ** Saving as JPEG *)

Lemma mode_in_inv (m : string) (ms : list string) :
  PIL.mode_in m ms = true -> In m ms.
Proof.
  unfold PIL.mode_in. rewrite existsb_exists.
  intros (x & Hx & E). apply String.eqb_eq in E. subst x. exact Hx.
Qed.




(** ** The batch loop *)

Module LoopFacts.

Lemma same_control_refl (s : State) : same_control s s.
Proof. repeat split. Qed.

Lemma same_control_trans (s1 s2 s3 : State) :
  same_control s1 s2 -> same_control s2 s3 -> same_control s1 s3.
Proof.
  unfold same_control. intros H1 H2.
  destruct H1 as (?&?&?&?&?&?&?&?), H2 as (?&?&?&?&?&?&?&?).
  repeat split; congruence.
Qed.

(** What a call of [optimize_image] does. *)
Lemma optimize_image_run (W : World) (file_path : string)
    (settings : Settings) (s : State) :
  optimize_image W file_path settings s
  = match optimize_image_body W file_path settings with
    | Ok f => (Ok true, set_written (written s ++ [f]) s)
    | Raise e =>
        (Ok false,
         set_stdout (stdout s ++ [("Error optimizing " ++ file_path ++ ": "
                                   ++ exn_str e)%string]) s)
    end.
Proof.
  unfold optimize_image, try_except, bind, lift, print, modify, ret.
  destruct (optimize_image_body W file_path settings); reflexivity.
Qed.

(** One pass through the body of the loop: the item counts once, as a
    success or as a failure. *)
Lemma iteration_spec (W : World) (settings : Settings) (i : nat)
    (file_path : string) (c : counters) (s : State) :
  same_control s (snd (iteration W settings i file_path c s))
  /\ forall c', fst (iteration W settings i file_path c s) = Ok c' ->
       let ok := is_ok (optimize_image_body W file_path settings) in
       total_files c' = total_files c
       /\ processed c' = processed c + 1
       /\ successful c' = successful c + (if ok then 1 else 0)
       /\ failed c' = failed c + (if ok then 0 else 1).
Proof.
  unfold iteration, try_except, bind, modify, ret, lift.
  rewrite optimize_image_run.
  destruct (optimize_image_body W file_path settings) as [f|e];
    cbn [is_ok];
    (destruct (percentage _ _) as [p|e'];
     [destruct (_ || _)|]);
    (split; [repeat split | cbn [fst]; intros c' [= <-]; cbn; lia])
    || (split; [repeat split | cbn [fst]; intros c' [=]]).
Qed.

(** The loop while the control context is quiet. *)
Lemma loop_quiet_spec (Ws : nat -> World) (settings : Settings)
    (items : list string) :
  forall (i : nat) (c : counters) (seen : list string) (s : State)
         (r : report) (s' : State),
  loop_quiet Ws settings items i c seen s = (Ok r, s') ->
  same_control s s'
  /\ exists done rest : list string,
       items = done ++ rest
       /\ visited r = seen ++ done
       /\ total_files (locals r) = total_files c
       /\ processed (locals r) = processed c + Z.of_nat (length done)
       /\ successful (locals r)
          = successful c + successes Ws settings i done
       /\ failed (locals r)
          = failed c + (Z.of_nat (length done)
                        - successes Ws settings i done)
       /\ match exit r with
          | Broke => processing s' = false /\ rest <> []
          | Exhausted => rest = []
          end.
Proof.
  induction items as [|file_path items IH]; intros i c seen s r s' H.
  - cbn in H. injection H as <- <-.
    split; [apply same_control_refl|].
    exists [], []. cbn. rewrite app_nil_r. repeat split; lia.
  - cbn [loop_quiet] in H. unfold bind at 1, gets in H.
    destruct (processing s) eqn:Hp.
    + unfold bind at 1 in H.
      pose proof (iteration_spec (Ws i) settings i file_path c s) as [Hc Hn].
      destruct (iteration (Ws i) settings i file_path c s) as [[c1|e] s1];
        [|discriminate].
      cbn [fst snd] in Hc, Hn. specialize (Hn c1 eq_refl). cbv zeta in Hn.
      destruct Hn as (Ht & Hpr & Hs & Hf).
      apply IH in H
        as (Hc' & done & rest & -> & Hv & Ht' & Hpr' & Hs' & Hf' & He).
      split; [apply (same_control_trans _ _ _ Hc Hc')|].
      exists (file_path :: done), rest.
      rewrite <- app_assoc in Hv. cbn [app] in Hv.
      cbn [length successes].
      destruct (is_ok (optimize_image_body (Ws i) file_path settings));
        repeat split; try assumption; try lia.
    + unfold ret in H. injection H as <- <-.
      split; [apply same_control_refl|].
      exists [], (file_path :: items). cbn. rewrite app_nil_r.
      repeat split; try lia; try assumption. discriminate.
Qed.

(** The loop under any schedule of the control context. *)
Lemma loop_spec (Ws : nat -> World) (settings : Settings)
    (schedule : list (list event)) (files : ref) :
  forall (i : nat) (c : counters) (seen : list string) (s : State)
         (r : report) (s' : State),
  loop Ws settings schedule files i c seen s = (Ok r, s') ->
  exists done : list string,
    visited r = seen ++ done
    /\ total_files (locals r) = total_files c
    /\ processed (locals r) = processed c + Z.of_nat (length done)
    /\ successful (locals r) = successful c + successes Ws settings i done
    /\ failed (locals r)
       = failed c + (Z.of_nat (length done) - successes Ws settings i done)
    /\ (exit r = Broke -> processing s' = false).
Proof.
  induction schedule as [|evs schedule IH]; intros i c seen s r s' H.
  - cbn [loop] in H. unfold bind at 1, gets in H.
    apply loop_quiet_spec in H
      as (_ & done & rest & _ & Hv & Ht & Hpr & Hs & Hf & He).
    exists done. repeat split; try assumption.
    intros E. rewrite E in He. tauto.
  - cbn [loop] in H. unfold bind at 1, modify in H.
    set (s1 := handle_all evs s) in *.
    unfold bind at 1, gets in H.
    destruct (deref s1 files !! i) as [file_path|].
    + unfold bind at 1, gets in H.
      destruct (processing s1) eqn:Hp.
      * unfold bind at 1 in H.
        pose proof (iteration_spec (Ws i) settings i file_path c s1)
          as [_ Hn].
        destruct (iteration (Ws i) settings i file_path c s1)
          as [[c1|e] s2]; [|discriminate].
        cbn [fst] in Hn. specialize (Hn c1 eq_refl). cbv zeta in Hn.
        destruct Hn as (Ht & Hpr & Hs & Hf).
        apply IH in H as (done & Hv & Ht' & Hpr' & Hs' & Hf' & He).
        exists (file_path :: done).
        rewrite <- app_assoc in Hv. cbn [app] in Hv.
        cbn [length successes].
        destruct (is_ok (optimize_image_body (Ws i) file_path settings));
          repeat split; try assumption; try lia.
      * unfold ret in H. injection H as <- <-.
        exists []. cbn. rewrite app_nil_r. repeat split; try lia.
        intros _. exact Hp.
    + unfold ret in H. injection H as <- <-.
      exists []. cbn. rewrite app_nil_r. repeat split; try lia.
      discriminate.
Qed.

Lemma process_images_inv (Ws : nat -> World) (schedule : list (list event))
    (files : ref) (settings : Settings) (s : State) (r : report)
    (s' : State) :
  process_images Ws schedule files settings s = (Ok r, s') ->
  exists s1,
    loop Ws settings schedule files 0
         (initial_counters (Z.of_nat (length (deref s files)))) [] s
    = (Ok r, s1)
    /\ s' = set_after_queue
              (after_queue s1
               ++ [(successful (locals r), failed (locals r))]) s1.
Proof.
  unfold process_images, bind, gets, modify, ret.
  destruct (loop _ _ _ _ _ _ _ _) as [[r1|e] s1]; [|discriminate].
  intros [= <- <-]. exists s1. split; reflexivity.
Qed.

(** Whatever the control context does, every item that is processed is
    counted once, as a success or as a failure. *)
Lemma counts_add_up (Ws : nat -> World) (schedule : list (list event))
    (files : ref) (settings : Settings) (s : State) (r : report)
    (s' : State) :
  process_images Ws schedule files settings s = (Ok r, s') ->
  processed (locals r) = Z.of_nat (length (visited r))
  /\ successful (locals r) + failed (locals r) = processed (locals r)
  /\ successful (locals r) = successes Ws settings 0 (visited r)
  /\ total_files (locals r) = Z.of_nat (length (deref s files)).
Proof.
  intros H. apply process_images_inv in H as (s1 & H & _).
  apply loop_spec in H as (done & Hv & Ht & Hp & Hs & Hf & _).
  cbn in Hv, Ht, Hp, Hs, Hf. subst done.
  repeat split; try assumption; lia.
Qed.

(** When the control context leaves the list alone the total is not
    overrun, and it is reached exactly when the loop is not left by
    [break]. *)
Lemma loop_fixed_list (Ws : nat -> World) (settings : Settings)
    (schedule : list (list event)) (files : ref) :
  (forall evs s, In evs schedule ->
                 deref (handle_all evs s) files = deref s files) ->
  forall (i : nat) (c : counters) (seen : list string) (s : State)
         (r : report) (s' : State),
  loop Ws settings schedule files i c seen s = (Ok r, s') ->
  exists done rest : list string,
    drop i (deref s files) = done ++ rest
    /\ processed (locals r) = processed c + Z.of_nat (length done)
    /\ match exit r with
       | Broke => rest <> []
       | Exhausted => rest = []
       end.
Proof.
  induction schedule as [|evs schedule IH]; intros Hk i c seen s r s' H.
  - cbn [loop] in H. unfold bind at 1, gets in H.
    apply loop_quiet_spec in H
      as (_ & done & rest & Hd & _ & _ & Hpr & _ & _ & He).
    exists done, rest. repeat split; try assumption.
    destruct (exit r); tauto.
  - cbn [loop] in H. unfold bind at 1, modify in H.
    pose proof (Hk evs s (or_introl eq_refl)) as Hl.
    set (s1 := handle_all evs s) in *.
    unfold bind at 1, gets in H.
    destruct (deref s1 files !! i) as [file_path|] eqn:Hi.
    + unfold bind at 1, gets in H.
      rewrite <- Hl. rewrite (drop_S _ _ _ Hi).
      destruct (processing s1) eqn:Hp.
      * unfold bind at 1 in H.
        pose proof (iteration_spec (Ws i) settings i file_path c s1)
          as [Hc Hn].
        destruct (iteration (Ws i) settings i file_path c s1)
          as [[c1|e] s2]; [|discriminate].
        cbn [fst snd] in Hc, Hn. specialize (Hn c1 eq_refl).
        cbv zeta in Hn. destruct Hn as (_ & Hpr & _ & _).
        apply IH in H as (done & rest & Hd & Hpr' & He);
          [|intros; apply Hk; right; assumption].
        exists (file_path :: done), rest.
        assert (Hh : deref s2 files = deref s1 files).
        { unfold deref. destruct Hc as (_ & _ & _ & -> & _). reflexivity. }
        rewrite Hh in Hd. cbn [app length]. rewrite Hd.
        repeat split; try assumption; lia.
      * unfold ret in H. injection H as <- <-.
        exists [], (file_path :: drop (S i) (deref s1 files)). cbn.
        repeat split; try lia. discriminate.
    + unfold ret in H. injection H as <- <-.
      exists [], []. cbn. rewrite <- Hl.
      rewrite drop_ge by (apply lookup_ge_None; exact Hi).
      repeat split; lia.
Qed.

Lemma fixed_list_counts (Ws : nat -> World) (schedule : list (list event))
    (files : ref) (settings : Settings) (s : State) (r : report)
    (s' : State) :
  (forall evs s, In evs schedule ->
                 deref (handle_all evs s) files = deref s files) ->
  process_images Ws schedule files settings s = (Ok r, s') ->
  processed (locals r) <= total_files (locals r)
  /\ (processed (locals r) = total_files (locals r)
      <-> exit r = Exhausted).
Proof.
  intros Hk H.
  pose proof (counts_add_up _ _ _ _ _ _ _ H) as (_ & _ & _ & Ht).
  apply process_images_inv in H as (s1 & H & _).
  apply (loop_fixed_list _ _ _ _ Hk) in H as (done & rest & Hd & Hp & He).
  rewrite drop_0 in Hd. cbn in Hp. rewrite Ht, Hd, length_app, Hp.
  destruct (exit r).
  - subst rest. cbn. split; [lia|]. split; [reflexivity | lia].
  - destruct rest as [|x rest]; [contradiction|]. cbn [length].
    split; [lia|]. split; [lia | discriminate].
Qed.

(** The progress is computed without an exception as long as the total
    is not zero. *)
Lemma percentage_ok (p t : Z) :
  0 <= p < 2 ^ 1023 -> 0 < t -> is_ok (percentage p t) = true.
Proof.
  intros Hp Ht. unfold percentage.
  rewrite ResizeFacts.int_truediv_ok by assumption.
  reflexivity.
Qed.

Lemma iteration_returns (W : World) (settings : Settings) (i : nat)
    (file_path : string) (c : counters) (s : State) :
  0 < total_files c -> 0 <= processed c < 2 ^ 1023 - 1 ->
  is_ok (fst (iteration W settings i file_path c s)) = true.
Proof.
  intros Ht Hp.
  unfold iteration, try_except, bind, modify, ret, lift.
  rewrite optimize_image_run.
  destruct (optimize_image_body W file_path settings) as [f|e];
    cbn [count_processed count_success count_failure processed total_files];
    (pose proof (percentage_ok (processed c + 1) (total_files c)
                   ltac:(lia) Ht) as Hok;
     destruct (percentage (processed c + 1) (total_files c)) as [pr|e'];
     [|discriminate Hok];
     destruct (_ || _); reflexivity).
Qed.

(** A run over a list that is not empty, with the control context
    quiet, comes to its end. *)
Lemma loop_quiet_returns (Ws : nat -> World) (settings : Settings)
    (items : list string) :
  forall (i : nat) (c : counters) (seen : list string) (s : State),
  0 < total_files c ->
  0 <= processed c ->
  processed c + Z.of_nat (length items) < 2 ^ 1023 ->
  is_ok (fst (loop_quiet Ws settings items i c seen s)) = true.
Proof.
  induction items as [|file_path items IH]; intros i c seen s Ht Hp Hb;
    [reflexivity|].
  cbn [loop_quiet]. unfold bind at 1, gets.
  destruct (processing s); [|reflexivity].
  unfold bind at 1. cbn [length] in Hb.
  pose proof (iteration_returns (Ws i) settings i file_path c s Ht
                ltac:(lia)) as Hok.
  pose proof (iteration_spec (Ws i) settings i file_path c s) as [_ Hn].
  destruct (iteration (Ws i) settings i file_path c s) as [[c1|e] s1];
    [|discriminate Hok].
  cbn [fst] in Hn. destruct (Hn c1 eq_refl) as (Ht1 & Hp1 & _).
  apply IH; lia.
Qed.

Lemma quiet_run_returns (Ws : nat -> World) (files : ref)
    (settings : Settings) (s : State) :
  deref s files <> [] ->
  Z.of_nat (length (deref s files)) < 2 ^ 1023 ->
  exists r s', process_images Ws [] files settings s = (Ok r, s').
Proof.
  intros Hne Hb. unfold process_images, bind at 1, gets.
  unfold bind at 1. cbn [loop]. unfold bind at 1, gets.
  rewrite drop_0.
  pose proof (loop_quiet_returns Ws settings (deref s files) 0
                (initial_counters (Z.of_nat (length (deref s files))))
                [] s) as Hok.
  destruct (loop_quiet _ _ _ _ _ _ _) as [[r|e] s1].
  - eexists _, _. reflexivity.
  - exfalso. cbn [fst is_ok] in Hok.
    assert (0 < Z.of_nat (length (deref s files))).
    { destruct (deref s files); [contradiction | cbn [length]; lia]. }
    discriminate Hok; cbn; lia.
Qed.

End LoopFacts.


(** ** Starting a run *)

Module StartFacts.
Local Open Scope string_scope.

(** The directory [start_optimization] settles on. *)
Lemma choose_output_dir_run (s : State) :
  choose_output_dir s
  = if String.eqb (output_dir_var s) ""
    then let dir := PyStr.join
                      (PyStr.dirname (hd "" (deref s (selected_files s))))
                      DEFAULTS.output_subfolder in
         (Ok dir, set_output_dir_var dir s)
    else (Ok (output_dir_var s), s).
Proof.
  unfold choose_output_dir, bind, gets, modify, ret.
  destruct (String.eqb (output_dir_var s) ""); reflexivity.
Qed.

(** The directory and the state once the directory is settled. *)
Lemma choose_output_dir_ok (s : State) :
  exists dir s1,
    choose_output_dir s = (Ok dir, s1)
    /\ dir = (if String.eqb (output_dir_var s) ""
              then PyStr.join
                     (PyStr.dirname (hd "" (deref s (selected_files s))))
                     DEFAULTS.output_subfolder
              else output_dir_var s)
    /\ s1 = (if String.eqb (output_dir_var s) ""
             then set_output_dir_var dir s else s).
Proof.
  rewrite choose_output_dir_run.
  destruct (String.eqb (output_dir_var s) ""); eexists _, _;
    repeat split; reflexivity.
Qed.

(** [start_optimization], case by case. *)
Lemma start_optimization_run (W : World) (s : State) :
  start_optimization W s
  = match deref s (selected_files s) with
    | [] =>
        (Ok tt,
         set_dialogs (dialogs s ++ [showwarning TEXTS.no_files_warn
                                                TEXTS.no_files_msg]) s)
    | _ :: _ =>
        match choose_output_dir s with
        | (Ok dir, s1) =>
            match (if os_path_exists W dir then None
                   else os_makedirs W dir) with
            | Some e =>
                (Ok tt,
                 set_dialogs
                   (dialogs s1 ++ [showerror TEXTS.dir_error_title
                                             (TEXTS.dir_error_msg e)]) s1)
            | None =>
                match capture_settings s1 dir with
                | Ok settings => enter_running settings s1
                | Raise e => (Raise e, s1)
                end
            end
        | (Raise e, s1) => (Raise e, s1)
        end
    end.
Proof.
  unfold start_optimization, bind at 1, gets.
  destruct (deref s (selected_files s)) as [|f fs]; [reflexivity|].
  unfold bind at 1.
  destruct (choose_output_dir s) as [[dir|e] s1]; [|reflexivity].
  destruct (if os_path_exists W dir then None else os_makedirs W dir);
    [reflexivity|].
  unfold bind. destruct (capture_settings s1 dir); reflexivity.
Qed.









End StartFacts.


(** ** The shared list *)

Module AliasFacts.
Import LoopFacts StartFacts.

Lemma grows_refl (files : ref) (s : State) :
  files ∈ dom (heap s) -> grows files s s.
Proof.
  intros H. split; [exact H|]. exists []. rewrite app_nil_r. reflexivity.
Qed.


Lemma grows_same_heap (files : ref) (s s' : State) :
  files ∈ dom (heap s) -> heap s' = heap s -> grows files s s'.
Proof.
  intros Hd Hh. unfold grows, deref. rewrite Hh.
  split; [exact Hd|]. exists []. rewrite app_nil_r. reflexivity.
Qed.

(** A list made by the control context is a new object. *)
Lemma grows_new_list (files : ref) (s s' : State) (l : list string) :
  files ∈ dom (heap s) ->
  heap s' = <[new_ref s := l]> (heap s) ->
  grows files s s'.
Proof.
  intros Hd Hh.
  assert (Hne : new_ref s <> files).
  { intros E. apply (is_fresh (dom (heap s))). unfold new_ref in E.
    rewrite E. exact Hd. }
  unfold grows, deref. rewrite Hh. split.
  - rewrite dom_insert_L. set_solver.
  - exists []. rewrite app_nil_r.
    apply lookup_total_insert_ne. exact Hne.
Qed.

(** [extend] appends to the object it is called on. *)
Lemma grows_extend (files : ref) (s s' : State) (r : ref)
    (new_files : list string) :
  files ∈ dom (heap s) ->
  heap s' = <[r := deref s r ++ new_files]> (heap s) ->
  grows files s s'.
Proof.
  intros Hd Hh. unfold grows. unfold deref at 1. rewrite Hh. split.
  - rewrite dom_insert_L. set_solver.
  - destruct (decide (r = files)) as [->|Hne].
    + exists new_files. apply lookup_total_insert_eq.
    + exists []. rewrite app_nil_r.
      apply lookup_total_insert_ne. exact Hne.
Qed.

Lemma start_optimization_heap (W : World) (s : State) :
  heap (snd (start_optimization W s)) = heap s.
Proof.
  rewrite start_optimization_run.
  destruct (deref s (selected_files s)) as [|f fs]; [reflexivity|].
  destruct (choose_output_dir_ok s) as (dir & s1 & -> & _ & Hs1).
  assert (Hh : heap s1 = heap s).
  { rewrite Hs1. destruct (String.eqb (output_dir_var s) ""); reflexivity. }
  destruct (if os_path_exists W dir then None else os_makedirs W dir);
    [exact Hh|].
  destruct (capture_settings s1 dir); exact Hh.
Qed.

(** No event removes or shortens the list the thread iterates over;
    [select_folder] appends to it when it is still the selection. *)
Lemma handle_grows (files : ref) (ev : event) (s : State) :
  files ∈ dom (heap s) -> grows files s (handle ev s).
Proof.
  intros Hd.
  destruct ev as [W| |chosen|folder walk| |directory|v|dir|]; cbn [handle].
  - destruct (optimize_btn s); [|apply grows_refl, Hd].
    apply grows_same_heap; [exact Hd | apply start_optimization_heap].
  - destruct (cancel_btn s); [|apply grows_refl, Hd].
    apply grows_same_heap; [exact Hd|].
    unfold callback, cancel_optimization, bind, gets, modify, ret.
    destruct (processing s); reflexivity.
  - unfold callback, select_files.
    destruct chosen as [|f fs]; [apply grows_refl, Hd|].
    apply (grows_new_list _ _ _ (f :: fs) Hd). reflexivity.
  - unfold callback, select_folder.
    destruct (String.eqb folder ""); [apply grows_refl, Hd|].
    destruct (discover walk) as [|f fs] eqn:Hw;
      [apply grows_same_heap; [exact Hd | reflexivity]|].
    apply (grows_extend _ _ _ (selected_files s) (f :: fs) Hd).
    reflexivity.
  - apply (grows_new_list _ _ _ [] Hd). reflexivity.
  - unfold callback, select_output_dir.
    destruct (String.eqb directory ""); apply grows_same_heap;
      (exact Hd || reflexivity).
  - apply grows_same_heap; [exact Hd | reflexivity].
  - apply grows_same_heap; [exact Hd | reflexivity].
  - destruct (after_queue s) as [|[successful failed] rest];
      [apply grows_refl, Hd|].
    apply grows_same_heap; [exact Hd|].
    unfold callback, finish_optimization, bind, gets, modify, messagebox.
    destruct (successful >? 0)%Z; reflexivity.
Qed.



Lemma start_optimization_threads (W : World) (s : State) :
  selected_files (snd (start_optimization W s)) = selected_files s
  /\ (optimization_thread (snd (start_optimization W s))
      = optimization_thread s
      \/ exists settings,
           optimization_thread (snd (start_optimization W s))
           = optimization_thread s ++ [(selected_files s, settings)]).
Proof.
  rewrite start_optimization_run.
  destruct (deref s (selected_files s)) as [|f fs];
    [split; [reflexivity | left; reflexivity]|].
  destruct (choose_output_dir_ok s) as (dir & s1 & -> & _ & Hs1).
  assert (Hsame : selected_files s1 = selected_files s
                  /\ optimization_thread s1 = optimization_thread s).
  { rewrite Hs1. destruct (String.eqb (output_dir_var s) "");
      split; reflexivity. }
  destruct Hsame as [Hsel Hthr].
  destruct (if os_path_exists W dir then None else os_makedirs W dir);
    [split; [exact Hsel | left; exact Hthr]|].
  destruct (capture_settings s1 dir) as [settings|e];
    [|split; [exact Hsel | left; exact Hthr]].
  split; [exact Hsel|]. right. exists settings.
  cbn. rewrite Hsel, Hthr. reflexivity.
Qed.

Lemma live_same_heap (s s' : State) :
  live s -> heap s' = heap s -> selected_files s' = selected_files s ->
  optimization_thread s' = optimization_thread s -> live s'.
Proof.
  unfold live. intros [H1 H2] -> -> ->. split; assumption.
Qed.

Lemma live_grows (s s' : State) :
  live s ->
  (forall files, files ∈ dom (heap s) -> grows files s s') ->
  selected_files s' ∈ dom (heap s') ->
  optimization_thread s' = optimization_thread s ->
  live s'.
Proof.
  intros [H1 H2] Hg Hsel Hthr. split; [exact Hsel|].
  rewrite Hthr. intros files settings Hin.
  apply (Hg files (H2 _ _ Hin)).
Qed.

(** Every event leaves the selection and the threads' lists in the
    heap. *)
Lemma handle_live (ev : event) (s : State) : live s -> live (handle ev s).
Proof.
  intros Hl.
  pose proof (fun files Hd => handle_grows files ev s Hd) as Hg.
  destruct ev as [W| |chosen|folder walk| |directory|v|dir|];
    cbn [handle] in *.
  - destruct (optimize_btn s); [|exact Hl].
    unfold callback in *.
    destruct (start_optimization_threads W s) as [Hsel Hthr].
    pose proof (start_optimization_heap W s) as Hh.
    destruct Hl as [H1 H2]. split.
    + rewrite Hsel, Hh. exact H1.
    + rewrite Hh. destruct Hthr as [->|[settings ->]]; [exact H2|].
      intros files st Hin. apply in_app_or in Hin as [Hin|Hin].
      * apply (H2 _ _ Hin).
      * destruct Hin as [[= <- _]|[]]. exact H1.
  - destruct (cancel_btn s); [|exact Hl].
    apply (live_same_heap s); [exact Hl | | |];
      unfold callback, cancel_optimization, bind, gets, modify, ret;
      destruct (processing s); reflexivity.
  - unfold callback, select_files in *.
    destruct chosen as [|f fs]; [exact Hl|].
    apply (live_grows s); [exact Hl | exact Hg | | reflexivity].
    cbn. rewrite dom_insert_L. set_solver.
  - unfold callback, select_folder in *.
    destruct (String.eqb folder ""); [exact Hl|].
    destruct (discover walk) as [|f fs];
      [apply (live_same_heap s); [exact Hl | | |]; reflexivity|].
    apply (live_grows s); [exact Hl | exact Hg | | reflexivity].
    cbn. rewrite dom_insert_L. destruct Hl as [H1 _]. set_solver.
  - apply (live_grows s); [exact Hl | exact Hg | | reflexivity].
    cbn. rewrite dom_insert_L. set_solver.
  - unfold callback, select_output_dir.
    destruct (String.eqb directory "");
      apply (live_same_heap s); (exact Hl || reflexivity).
  - apply (live_same_heap s); (exact Hl || reflexivity).
  - apply (live_same_heap s); (exact Hl || reflexivity).
  - destruct (after_queue s) as [|[successful failed] rest]; [exact Hl|].
    apply (live_same_heap s); [exact Hl | | |];
      unfold callback, finish_optimization, bind, gets, modify, messagebox;
      destruct (successful >? 0)%Z; reflexivity.
Qed.

Lemma handle_all_live (evs : list event) (s : State) :
  live s -> live (handle_all evs s).
Proof.
  unfold handle_all. revert s.
  induction evs as [|ev evs IH]; intros s Hl; [exact Hl|].
  cbn [fold_left]. apply IH, handle_live, Hl.
Qed.

Lemma same_control_live (s s' : State) :
  same_control s s' -> live s -> live s'.
Proof.
  intros (_ & _ & _ & Hh & Hsel & Hthr & _) Hl.
  apply (live_same_heap s); assumption.
Qed.

Lemma loop_quiet_live (Ws : nat -> World) (settings : Settings)
    (items : list string) :
  forall (i : nat) (c : counters) (seen : list string) (s : State),
  live s -> live (snd (loop_quiet Ws settings items i c seen s)).
Proof.
  induction items as [|file_path items IH]; intros i c seen s Hl;
    [exact Hl|].
  cbn [loop_quiet]. unfold bind at 1, gets.
  destruct (processing s); [|exact Hl].
  unfold bind at 1.
  pose proof (iteration_spec (Ws i) settings i file_path c s) as [Hc _].
  destruct (iteration (Ws i) settings i file_path c s) as [[c1|e] s1];
    cbn [snd] in Hc |- *.
  - apply IH, (same_control_live _ _ Hc Hl).
  - apply (same_control_live _ _ Hc Hl).
Qed.

Lemma loop_live (Ws : nat -> World) (settings : Settings)
    (schedule : list (list event)) (files : ref) :
  forall (i : nat) (c : counters) (seen : list string) (s : State),
  live s -> live (snd (loop Ws settings schedule files i c seen s)).
Proof.
  induction schedule as [|evs schedule IH]; intros i c seen s Hl.
  - cbn [loop]. unfold bind at 1, gets. apply loop_quiet_live, Hl.
  - cbn [loop]. unfold bind at 1, modify. unfold bind at 1, gets.
    pose proof (handle_all_live evs s Hl) as Hl1.
    set (s1 := handle_all evs s) in *.
    destruct (deref s1 files !! i) as [file_path|]; [|exact Hl1].
    unfold bind at 1, gets.
    destruct (processing s1); [|exact Hl1].
    unfold bind at 1.
    pose proof (iteration_spec (Ws i) settings i file_path c s1) as [Hc _].
    destruct (iteration (Ws i) settings i file_path c s1) as [[c1|e] s2];
      cbn [snd] in Hc |- *.
    + apply IH, (same_control_live _ _ Hc Hl1).
    + apply (same_control_live _ _ Hc Hl1).
Qed.

(** The list of every thread the application starts is an object of the
    heap. *)
Lemma reachable_live (s : State) : reachable s -> live s.
Proof.
  induction 1 as [|s ev _ IH|s Ws schedule files settings _ IH _].
  - split; [|intros ? ? []].
    apply elem_of_dom. eexists. vm_compute. reflexivity.
  - apply handle_live, IH.
  - unfold process_images, bind, gets, modify, ret.
    pose proof (loop_live Ws settings schedule files 0
                  (initial_counters (Z.of_nat (length (deref s files))))
                  [] s IH) as H.
    destruct (loop _ _ _ _ _ _ _ _) as [[r|e] s1]; cbn [snd] in H |- *.
    + apply (live_same_heap s1); (exact H || reflexivity).
    + exact H.
Qed.

End AliasFacts.

(** ** The run as a whole *)

Import LoopFacts StartFacts AliasFacts.



(** C2.  The thread iterates over the very list object that
    [self.selected_files] names.  When the user adds a folder during the
    run the list grows under the iterator, while [total_files] keeps the
    length read at the start: with one file selected and one more found
    in the folder, the run ends with [processed = 2] and
    [total_files = 1], and the progress shown is 200 percent. *)
Theorem stale_total_is_overrun :
  deref one_file_running (selected_files one_file_running)
  = ["/in/a.jpg"%string]
  /\ match optimization_thread one_file_running with
     | [(files, settings)] =>
         files = selected_files one_file_running
         /\ let run := process_images (fun _ => sample_world) folder_added
                         files settings one_file_running in
            fst run
            = Ok {| locals := {| total_files := 1; processed := 2;
                                 successful := 2; failed := 0 |};
                    visited := ["/in/a.jpg"; "/more/b.png"]%string;
                    exit := Exhausted |}
            /\ match progress_var (snd run) with
               | PyFloat.Finite percent => (percent == 200)%Q
               | PyFloat.Infinity _ => False
               end
     | _ => False
     end.
Proof.
  split; [vm_compute; reflexivity|].
  vm_compute. repeat split; reflexivity.
Qed.

(** C8.  A start with nothing selected, or with an output directory that
    does not exist and cannot be created, shows one message box and
    returns: the run state, the buttons, the progress and the status stay
    as they were, no thread is started, nothing is posted to
    [finish_optimization], printed or written. *)
Theorem configuration_error_aborts (W : World) (s : State) :
  let files := deref s (selected_files s) in
  let dir :=
    if String.eqb (output_dir_var s) ""
    then PyStr.join (PyStr.dirname (hd ""%string files))
                    DEFAULTS.output_subfolder
    else output_dir_var s in
  files = [] \/ (os_path_exists W dir = false /\ os_makedirs W dir <> None) ->
  exists (d : dialog) (s' : State),
    start_optimization W s = (Ok tt, s')
    /\ dialogs s' = dialogs s ++ [d]
    /\ ((files = []
         /\ d = showwarning TEXTS.no_files_warn TEXTS.no_files_msg)
        \/ (exists e, files <> [] /\ os_makedirs W dir = Some e
            /\ d = showerror TEXTS.dir_error_title (TEXTS.dir_error_msg e)))
    /\ processing s' = processing s
    /\ optimization_thread s' = optimization_thread s
    /\ optimize_btn s' = optimize_btn s
    /\ cancel_btn s' = cancel_btn s
    /\ progress_var s' = progress_var s
    /\ status_var s' = status_var s
    /\ after_queue s' = after_queue s
    /\ stdout s' = stdout s
    /\ written s' = written s.
Proof.
  cbv zeta. intros H. rewrite start_optimization_run.
  destruct (deref s (selected_files s)) as [|f fs] eqn:Hfiles.
  - eexists _, _. split; [reflexivity|]. split; [reflexivity|].
    split; [left; split; reflexivity|]. repeat split.
  - destruct H as [H|[Hex Hmk]]; [discriminate|].
    destruct (choose_output_dir_ok s) as (dir & s1 & -> & Hdir & Hs1).
    rewrite Hfiles in Hdir. rewrite <- Hdir in Hex, Hmk |- *. rewrite Hex.
    destruct (os_makedirs W dir) as [e|] eqn:Hm; [|contradiction].
    eexists _, _. split; [reflexivity|].
    assert (Hsame : dialogs s1 = dialogs s /\ processing s1 = processing s
      /\ optimization_thread s1 = optimization_thread s
      /\ optimize_btn s1 = optimize_btn s /\ cancel_btn s1 = cancel_btn s
      /\ progress_var s1 = progress_var s /\ status_var s1 = status_var s
      /\ after_queue s1 = after_queue s /\ stdout s1 = stdout s
      /\ written s1 = written s).
    { rewrite Hs1. destruct (String.eqb (output_dir_var s) "");
        repeat split. }
    destruct Hsame as (Hd & ? & ? & ? & ? & ? & ? & ? & ? & ?).
    split; [cbn; rewrite Hd; reflexivity|].
    split; [right; exists e; split; [discriminate|]; split; reflexivity|].
    repeat split; assumption.
Qed.

(** A start with nothing selected. *)
Lemma configuration_error_aborts_witness :
  exists s',
    start_optimization sample_world initial = (Ok tt, s')
    /\ dialogs s' = [showwarning TEXTS.no_files_warn TEXTS.no_files_msg]
    /\ processing s' = false
    /\ optimization_thread s' = [].
Proof.
  destruct (configuration_error_aborts sample_world initial)
    as (d & s' & Hrun & Hd & [[_ ->]|(e & Hne & _)] & Hp & Ht & _).
  - left. reflexivity.
  - exists s'. split; [exact Hrun|]. split; [exact Hd|].
    split; [exact Hp | exact Ht].
  - exfalso. apply Hne. reflexivity.
Defined.



